(** * Appointment sync service: a shallow embedding and its properties

    The development follows the appointment sync service of the web
    application (the file that exports [syncAppointments] and
    [startAutoSync]).  The service polls a master spreadsheet, resolves
    each new row against a directory of users and copies the row to the
    sheet of the user it belongs to, remembering in the browser's
    [localStorage] the last row it handled.

    Modelling choices.
    - JavaScript strings are Rocq strings; [toLowerCase] and [trim] act on
      the ASCII letters and the ASCII white space characters.
    - JavaScript numbers are the integers together with [NaN].  Addition,
      printing and parsing are exact on every integer, as the double
      arithmetic of the code is on the safe integers only (below 2^53 in
      absolute value): a statement that needs exact arithmetic carries
      [Js.safeInteger] hypotheses on the numbers involved.
    - [localStorage] is the value stored under the single key the service
      uses; reading and writing it never throws.
    - The remote spreadsheet API is an arbitrary function from the
      requests issued so far and the current request to a response; every
      request is logged, so that a property can speak about what was read
      and what was written.
    - A run is followed on its own, without interleaving with another run
      at its [await] points.
    - The timers of the browser are a table of interval timers, each
      with its delay and the time it is next due; one turn of the event
      loop fires the timer that is due first.  Delays are taken in the
      range where [setInterval] neither clamps nor wraps them. *)

From Stdlib Require Import ZArith Ascii String List Sorted Lia.
From Stdlib Require Import Decimal DecimalString DecimalZ.
From stdpp Require Import base option list strings gmap.

Local Open Scope string_scope.

(** ** Strings *)

Module Js.

Local Open Scope Z_scope.

(** A value is falsy when it is absent or the empty string. *)
Definition truthy (s : string) : bool :=
  match s with EmptyString => false | String _ _ => true end.

(** [v || d] for an optional string [v]. *)
Definition or_else (v : option string) (d : string) : string :=
  match v with
  | Some s => if truthy s then s else d
  | None => d
  end.

Definition isUpper (c : ascii) : bool :=
  (65 <=? Z.of_N (N_of_ascii c)) && (Z.of_N (N_of_ascii c) <=? 90).

Definition lowerChar (c : ascii) : ascii :=
  if isUpper c then ascii_of_N (N_of_ascii c + 32) else c.

(** [s.toLowerCase()], on the letters A to Z. *)
Fixpoint toLowerCase (s : string) : string :=
  match s with
  | EmptyString => EmptyString
  | String c s' => String (lowerChar c) (toLowerCase s')
  end.

Definition isWhiteSpace (c : ascii) : bool :=
  match N_of_ascii c with
  | 9%N | 10%N | 11%N | 12%N | 13%N | 32%N => true
  | _ => false
  end.

Fixpoint trimStart (s : string) : string :=
  match s with
  | EmptyString => EmptyString
  | String c s' => if isWhiteSpace c then trimStart s' else s
  end.

Definition trimEnd (s : string) : string :=
  String.rev (trimStart (String.rev s)).

(** [s.trim()], for the white space of ASCII: tab, line feed, vertical
    tab, form feed, carriage return and space. *)
Definition trim (s : string) : string := trimEnd (trimStart s).

Fixpoint includes (s : string) (c : ascii) : bool :=
  match s with
  | EmptyString => false
  | String d s' => Ascii.eqb c d || includes s' c
  end.

Fixpoint takeWhile (p : ascii -> bool) (s : string) : string :=
  match s with
  | EmptyString => EmptyString
  | String c s' => if p c then String c (takeWhile p s') else EmptyString
  end.

(** *** Numbers *)

Inductive number : Type :=
| Int (z : Z)
| NaN.

(** [a + b].  Exact on the integers; the doubles of the code add exactly
    as long as the operands and the sum are safe integers. *)
Definition add (a b : number) : number :=
  match a, b with
  | Int x, Int y => Int (x + y)
  | _, _ => NaN
  end.

(** [n.toString()].  The full decimal text; what the code prints for
    every safe integer (exponent notation starts at 1e21). *)
Definition toString (n : number) : string :=
  match n with
  | Int z => NilZero.string_of_int (Z.to_int z)
  | NaN => "NaN"
  end.

Definition isDigit (c : ascii) : bool :=
  (48 <=? Z.of_N (N_of_ascii c)) && (Z.of_N (N_of_ascii c) <=? 57).

(** The digits of [parseInt]: the longest prefix of decimal digits, read
    as a number; no digit at all gives [NaN]. *)
Definition parseDigits (s : string) : option Z :=
  match takeWhile isDigit s with
  | EmptyString => None
  | ds => option_map Z.of_uint (NilEmpty.uint_of_string ds)
  end.

(** [parseInt(s, 10)]: leading white space is skipped, then an optional
    sign, then the digits; whatever follows the digits is ignored.  The
    value is exact; the code's is the nearest double, the same number
    when the digits denote a safe integer. *)
Definition parseInt (s : string) : number :=
  match trimStart s with
  | String "-" r =>
      match parseDigits r with Some z => Int (- z) | None => NaN end
  | String "+" r =>
      match parseDigits r with Some z => Int z | None => NaN end
  | r => match parseDigits r with Some z => Int z | None => NaN end
  end.

(** [Number.isSafeInteger]: the integers on which the arithmetic of
    doubles is exact. *)
Definition safeInteger (z : Z) : Prop :=
  - 9007199254740992 < z < 9007199254740992.

End Js.

(** ** Configuration *)

(** The build-time environment ([import.meta.env]). *)
Record Env : Type := {
  VITE_GOOGLE_SHEETS_API_KEY : option string;
  VITE_MAIN_APPOINTMENTS_SHEET_ID : option string;
  VITE_USERS_SHEET_ID : option string
}.

Definition GOOGLE_SHEETS_API_BASE : string :=
  "https://sheets.googleapis.com/v4/spreadsheets".

(** ** The remote API and the browser storage *)

Module Http.

Inductive Method : Type := GET | PUT.

(** A request: the method, the URL and, for a write, the [values] matrix
    of the JSON body. *)
Record Request : Type := {
  method : Method;
  url : string;
  body : option (list (list string))
}.

(** What the service reads of a JSON body: its [values] field and the
    [error.message] field. *)
Record Json : Type := {
  values : option (list (list string));
  error_message : option string
}.

(** What [fetch] gives back: it rejects, or resolves to a response with
    its [ok] flag, its status and a body that parses as JSON or not. *)
Record Reply : Type := {
  ok : bool;
  status : Z;
  json : option Json
}.

Inductive Response : Type :=
| Rejected
| Resolved (response : Reply).

(** The remote side: the answer to a request, given the requests that
    came before it. *)
Definition Network : Type := list Request -> Request -> Response.

End Http.

Inductive Exception : Type :=
| FetchFailed
| JsonFailed
| Error (message : string).

(** The state a run acts on: the value stored under
    [last_processed_appointment_row], the log of the requests sent, and
    the log of the values written to the storage. *)
Record World : Type := {
  localStorage : option string;
  requests : list Http.Request;
  setItems : list string
}.

(** ** Computations that read and write the world and may throw *)

Inductive Completion (A : Type) : Type :=
| Return (a : A)
| Throw (e : Exception).
Arguments Return {A} a.
Arguments Throw {A} e.

Definition Eff (A : Type) : Type := World -> Completion A * World.

Definition ret {A} (a : A) : Eff A := fun w => (Return a, w).

Definition throw {A} (e : Exception) : Eff A := fun w => (Throw e, w).

Definition bind {A B} (m : Eff A) (k : A -> Eff B) : Eff B :=
  fun w => match m w with
           | (Return a, w') => k a w'
           | (Throw e, w') => (Throw e, w')
           end.

Definition tryCatch {A} (m : Eff A) (handler : Exception -> Eff A) : Eff A :=
  fun w => match m w with
           | (Return a, w') => (Return a, w')
           | (Throw e, w') => handler e w'
           end.

Declare Scope eff_scope.
Delimit Scope eff_scope with eff.
Notation "'let*' x ':=' m 'in' k" := (bind m (fun x => k))
  (at level 10, x pattern, m at level 100, k at level 200) : eff_scope.
Notation "'do' m 'then' k" := (bind m (fun _ => k))
  (at level 10, m at level 100, k at level 200) : eff_scope.
Local Open Scope eff_scope.

(** ** The appointment rows and the counters *)

Record Appointment : Type := {
  rowIndex : Js.number;
  patientName : string;
  email : string;
  phoneNumber : string;
  reportUrl : string;
  date : string;
  startTime : string;
  status : string
}.

Record Stats : Type := {
  processed : nat;
  synced : nat;
  errors : nat
}.

(** How an iteration of the loop ends its [try] block: by [continue], or
    by reaching the statement after it. *)
Inductive Flow : Type := Continue | Next.

(** ** The service *)

(** The capture of [/\/spreadsheets\/d\/([a-zA-Z0-9-_]+)/]: the leftmost
    place where the path is followed by at least one character of the
    class, and the longest run of such characters there. *)
Definition isIdChar (c : ascii) : bool :=
  let n := Z.of_N (N_of_ascii c) in
  ((97 <=? n)%Z && (n <=? 122)%Z) || ((65 <=? n)%Z && (n <=? 90)%Z) ||
  ((48 <=? n)%Z && (n <=? 57)%Z) || Ascii.eqb c "-" || Ascii.eqb c "_".

Fixpoint stripPrefix (p s : string) : option string :=
  match p, s with
  | EmptyString, _ => Some s
  | String a p', String b s' => if Ascii.eqb a b then stripPrefix p' s' else None
  | String _ _, EmptyString => None
  end.

Definition matchHere (s : string) : option string :=
  match stripPrefix "/spreadsheets/d/" s with
  | Some rest =>
      let run := Js.takeWhile isIdChar rest in
      if Js.truthy run then Some run else None
  | None => None
  end.

Fixpoint matchSpreadsheetPath (s : string) : option string :=
  match matchHere s with
  | Some run => Some run
  | None =>
      match s with
      | EmptyString => None
      | String _ s' => matchSpreadsheetPath s'
      end
  end.

Definition extractSpreadsheetId (url : string) : option string :=
  if negb (Js.truthy url) then None
  else if negb (Js.includes url "/") then Some url
  else matchSpreadsheetPath url.

(** ** Timers

    The interval timers of the browser.  A callback acts on the page: the
    world of the service together with the times at which a run of the
    job was started; it is given the time at which it fires. *)










(** ** Sample data

    A configuration with a key and the default sheet ids, an empty
    browser storage, and remote sides that answer the successive
    requests of a run from a script. *)

Module Sample.

Definition env : Env :=
  {| VITE_GOOGLE_SHEETS_API_KEY := Some "k";
     VITE_MAIN_APPOINTMENTS_SHEET_ID := None;
     VITE_USERS_SHEET_ID := None |}.

Definition fresh : World :=
  {| localStorage := None; requests := []; setItems := [] |}.

Definition answer (rows : list (list string)) : Http.Response :=
  Http.Resolved
    {| Http.ok := true; Http.status := 200%Z;
       Http.json := Some {| Http.values := Some rows;
                            Http.error_message := None |} |}.

Definition refusal : Http.Response :=
  Http.Resolved {| Http.ok := false; Http.status := 503%Z; Http.json := None |}.

(** The n-th request of the log is answered by the n-th entry of the
    script; past the script the requests are rejected. *)
Definition scripted (answers : list Http.Response) : Http.Network :=
  fun before _ => nth (length before) answers Http.Rejected.

Definition annRow : list string :=
  ["Ann"; " Ann@X.com "; "555-0100"; "https://r/1"; "2024-05-02"; "09:30"].

Definition ghostRow : list string := [""; "ghost@x.com"].

Definition bobRow : list string := ["Bob"; "nobody@x.com"].

Definition userRows : list (list string) := [["ann@x.com"; "secret"; "sheetA"]].

Definition users : gmap string string := {[ "ann@x.com" := "sheetA" ]}.

Definition ann : Appointment :=
  {| rowIndex := Js.Int 2; patientName := "Ann"; email := "ann@x.com";
     phoneNumber := "555-0100"; reportUrl := "https://r/1";
     date := "2024-05-02"; startTime := "09:30"; status := "scheduled" |}.

Definition bob : Appointment :=
  {| rowIndex := Js.Int 4; patientName := "Bob"; email := "nobody@x.com";
     phoneNumber := ""; reportUrl := ""; date := ""; startTime := "";
     status := "scheduled" |}.

(** Three new rows: one for a known user, one without a patient name,
    one for an unknown email; the user's sheet holds two rows. *)
Definition netThree : Http.Network :=
  scripted [ answer [annRow; ghostRow; bobRow]; answer userRows;
             answer [["Patient Name"]; ["Zoe"]]; answer [] ].

(** One new row, for an unknown email, served again to the next run. *)
Definition netUnknown : Http.Network :=
  scripted [ answer [bobRow]; answer userRows;
             answer [bobRow]; answer userRows ].

(** A row without a patient name followed by a row for a known user. *)
Definition netGhostThenAnn : Http.Network :=
  scripted [ answer [ghostRow; annRow]; answer userRows;
             answer [["Patient Name"]]; answer [] ].

(** Nothing new on the master sheet. *)
Definition netQuiet : Http.Network := scripted [ answer [] ].

(** Only rows without a patient name. *)
Definition netGhosts : Http.Network :=
  scripted [ answer [ghostRow; ghostRow]; answer [ghostRow; ghostRow] ].

(** The master sheet answers, the user directory does not. *)
Definition netNoDirectory : Http.Network :=
  scripted [ answer [annRow]; refusal ].

(** The user's sheet cannot be read. *)
Definition netNoUserSheet : Http.Network :=
  scripted [ answer [annRow]; answer userRows; refusal ].


(** Configurations that are not usable: no key, and a users sheet id
    that is neither a plain id nor a spreadsheet URL. *)
Definition envNoKey : Env :=
  {| VITE_GOOGLE_SHEETS_API_KEY := None;
     VITE_MAIN_APPOINTMENTS_SHEET_ID := None;
     VITE_USERS_SHEET_ID := None |}.

Definition envBadUsers : Env :=
  {| VITE_GOOGLE_SHEETS_API_KEY := Some "k";
     VITE_MAIN_APPOINTMENTS_SHEET_ID := None;
     VITE_USERS_SHEET_ID := Some "sheets/users" |}.

(** A users sheet with two rows for the same user, in different case,
    and a row for another user; and a remote side that serves it. *)
Definition annOldRow : list string := ["ann@x.com"; "secret"; "old"].

Definition annNewRow : list string := [" Ann@X.com "; "secret"; " sheetA "].

Definition benRow : list string := ["ben@x.com"; "secret"; "sheetB"].

Definition netDirectory : Http.Network :=
  scripted [ answer [annOldRow; annNewRow; benRow] ].

(** A user's sheet with two rows that accepts the write. *)
Definition netUserSheet : Http.Network :=
  scripted [ answer [["Patient Name"]; ["Zoe"]]; answer [] ].


(** Two runs: the first appends the row of a known user and is answered
    [ok]; the scan of the second finds one more row. *)
Definition netTwoRuns : Http.Network :=
  scripted [ answer [annRow]; answer userRows;
             answer [["Patient Name"]]; answer [];
             answer [annRow] ].

End Sample.

Section Service.

Context (env : Env) (net : Http.Network).

Definition GOOGLE_SHEETS_API_KEY : string :=
  Js.or_else (VITE_GOOGLE_SHEETS_API_KEY env) "".

Definition MAIN_APPOINTMENTS_SHEET_ID : string :=
  Js.or_else (VITE_MAIN_APPOINTMENTS_SHEET_ID env)
    "1CsN2iqFZAXStQA-xqBO_OIEFeAGIMO2rTy_g_W0rNXU".

Definition USERS_SHEET_ID : string :=
  Js.or_else (VITE_USERS_SHEET_ID env)
    "1xftkSFbQbdMl4XIevPPJdYB0vqW7JJtL6HHh9CxkTPI".

(** *** Storage *)

Definition getLastProcessedRow : Eff Js.number :=
  fun w =>
    (Return match localStorage w with
            | Some stored =>
                if Js.truthy stored then Js.parseInt stored else Js.Int 1
            | None => Js.Int 1
            end, w).

Definition setLastProcessedRow (rowNumber : Js.number) : Eff unit :=
  fun w =>
    (Return tt,
     {| localStorage := Some (Js.toString rowNumber);
        requests := requests w;
        setItems := setItems w ++ [Js.toString rowNumber] |}).

(** *** Requests *)

Definition sent (r : Http.Request) (w : World) : World :=
  {| localStorage := localStorage w;
     requests := requests w ++ [r];
     setItems := setItems w |}.

Definition fetch (r : Http.Request) : Eff Http.Reply :=
  fun w =>
    match net (requests w) r with
    | Http.Rejected => (Throw FetchFailed, sent r w)
    | Http.Resolved response => (Return response, sent r w)
    end.

(** [response.json()] *)
Definition responseJson (response : Http.Reply) : Eff Http.Json :=
  match Http.json response with
  | Some data => ret data
  | None => throw JsonFailed
  end.

(** The error thrown on a response that is not [ok]: the message of the
    body when it has one, the status line otherwise. *)
Definition httpError (response : Http.Reply) : Exception :=
  Error (Js.or_else
           (match Http.json response with
            | Some errorData => Http.error_message errorData
            | None => None
            end)
           ("HTTP error! status: " ++ Js.toString (Js.Int (Http.status response)))).

Definition readUrl (spreadsheetId range : string) : string :=
  GOOGLE_SHEETS_API_BASE ++ "/" ++ spreadsheetId ++ "/values/" ++ range
    ++ "?key=" ++ GOOGLE_SHEETS_API_KEY.

Definition writeUrl (spreadsheetId range : string) : string :=
  GOOGLE_SHEETS_API_BASE ++ "/" ++ spreadsheetId ++ "/values/" ++ range
    ++ "?valueInputOption=RAW&key=" ++ GOOGLE_SHEETS_API_KEY.

Definition readRequest (spreadsheetId range : string) : Http.Request :=
  {| Http.method := Http.GET; Http.url := readUrl spreadsheetId range;
     Http.body := None |}.

Definition writeRequest (spreadsheetId range : string)
    (rows : list (list string)) : Http.Request :=
  {| Http.method := Http.PUT; Http.url := writeUrl spreadsheetId range;
     Http.body := Some rows |}.

(** *** The user directory *)

(** One row of the users sheet: email (A), password (B), sheet id (C). *)
Definition setUser (usersMap : gmap string string) (row : list string)
    : gmap string string :=
  match row !! 0%nat, row !! 2%nat with
  | Some email, Some sheet =>
      if Js.truthy email && Js.truthy sheet
      then <[Js.trim (Js.toLowerCase email) := Js.trim sheet]> usersMap
      else usersMap
  | _, _ => usersMap
  end.

Definition fetchUsersMap : Eff (gmap string string) :=
  if negb (Js.truthy GOOGLE_SHEETS_API_KEY) then ret ∅
  else
    match extractSpreadsheetId USERS_SHEET_ID with
    | None => throw (Error "Invalid users sheet ID format")
    | Some spreadsheetId =>
        let range := "Sheet1!A2:C" in
        let* response := fetch (readRequest spreadsheetId range) in
        if negb (Http.ok response) then throw (httpError response)
        else
          let* data := responseJson response in
          let rows := default [] (Http.values data) in
          ret (fold_left setUser rows ∅)
    end.

(** *** The scan of the master sheet *)

Definition parseAppointment (startRow : Js.number) (index : nat)
    (row : list string) : Appointment :=
  {| rowIndex := Js.add startRow (Js.Int (Z.of_nat index));
     patientName := Js.or_else (row !! 0%nat) "";
     email := Js.trim (Js.toLowerCase (Js.or_else (row !! 1%nat) ""));
     phoneNumber := Js.or_else (row !! 2%nat) "";
     reportUrl := Js.or_else (row !! 3%nat) "";
     date := Js.or_else (row !! 4%nat) "";
     startTime := Js.or_else (row !! 5%nat) "";
     status := Js.or_else (row !! 6%nat) "scheduled" |}.

Definition nonEmpty (apt : Appointment) : bool :=
  Js.truthy (email apt) && Js.truthy (patientName apt).

Definition parseAppointments (startRow : Js.number)
    (rows : list (list string)) : list Appointment :=
  List.filter nonEmpty (imap (parseAppointment startRow) rows).

Definition masterRange (startRow : Js.number) : string :=
  "Sheet1!A" ++ Js.toString startRow ++ ":G".

Definition fetchNewAppointments : Eff (list Appointment) :=
  if negb (Js.truthy GOOGLE_SHEETS_API_KEY) then ret []
  else
    match extractSpreadsheetId MAIN_APPOINTMENTS_SHEET_ID with
    | None => throw (Error "Invalid main appointments sheet ID format")
    | Some spreadsheetId =>
        let* lastProcessedRow := getLastProcessedRow in
        let startRow := Js.add lastProcessedRow (Js.Int 1) in
        let range := masterRange startRow in
        let* response := fetch (readRequest spreadsheetId range) in
        if negb (Http.ok response) then throw (httpError response)
        else
          let* data := responseJson response in
          let rows := default [] (Http.values data) in
          ret (parseAppointments startRow rows)
    end.

(** *** The write to a user's sheet *)

Definition appointmentRow (appointment : Appointment) : list string :=
  [ patientName appointment; email appointment; phoneNumber appointment;
    reportUrl appointment; date appointment; startTime appointment;
    status appointment ].

Definition appendRange (nextRow : Js.number) : string :=
  "Sheet1!A" ++ Js.toString nextRow ++ ":G" ++ Js.toString nextRow.

Definition appendAppointmentToUserSheet (userSpreadsheetId : string)
    (appointment : Appointment) : Eff unit :=
  if negb (Js.truthy GOOGLE_SHEETS_API_KEY)
  then throw (Error "Google Sheets API key not configured")
  else
    match extractSpreadsheetId userSpreadsheetId with
    | None => throw (Error "Invalid user spreadsheet ID format")
    | Some spreadsheetId =>
        let checkRange := "Sheet1!A:A" in
        let* checkResponse := fetch (readRequest spreadsheetId checkRange) in
        if negb (Http.ok checkResponse) then throw (httpError checkResponse)
        else
          let* checkData := responseJson checkResponse in
          let existingRows := default [] (Http.values checkData) in
          let nextRow := Js.Int (Z.of_nat (length existingRows) + 1) in
          let* appendResponse :=
            fetch (writeRequest spreadsheetId (appendRange nextRow)
                     [appointmentRow appointment]) in
          if negb (Http.ok appendResponse) then throw (httpError appendResponse)
          else ret tt
    end.

(** *** The sync job *)

Definition noStats : Stats := {| processed := 0; synced := 0; errors := 0 |}.

Definition countProcessed (stats : Stats) : Stats :=
  {| processed := S (processed stats); synced := synced stats;
     errors := errors stats |}.

Definition countSynced (stats : Stats) : Stats :=
  {| processed := processed stats; synced := S (synced stats);
     errors := errors stats |}.

Definition countError (stats : Stats) : Stats :=
  {| processed := processed stats; synced := synced stats;
     errors := S (errors stats) |}.

(** [usersMap.get(email)] followed by the test [!userSpreadsheetId]. *)
Definition lookupUser (usersMap : gmap string string) (email : string)
    : option string :=
  match usersMap !! email with
  | Some userSpreadsheetId =>
      if Js.truthy userSpreadsheetId then Some userSpreadsheetId else None
  | None => None
  end.

(** The body of the loop, for one appointment. *)
Definition syncAppointment (usersMap : gmap string string)
    (stats : Stats) (appointment : Appointment) : Eff Stats :=
  let stats := countProcessed stats in
  let* (stats, flow) :=
    tryCatch
      (match lookupUser usersMap (email appointment) with
       | None => ret (countError stats, Continue)
       | Some userSpreadsheetId =>
           do appendAppointmentToUserSheet userSpreadsheetId appointment
           then ret (countSynced stats, Next)
       end)
      (fun _ => ret (countError stats, Next)) in
  match flow with
  | Continue => ret stats
  | Next =>
      do setLastProcessedRow (rowIndex appointment) then ret stats
  end.

Fixpoint syncLoop (usersMap : gmap string string) (stats : Stats)
    (appointments : list Appointment) : Eff Stats :=
  match appointments with
  | [] => ret stats
  | appointment :: rest =>
      let* stats := syncAppointment usersMap stats appointment in
      syncLoop usersMap stats rest
  end.

Definition syncAppointments : Eff Stats :=
  let stats := noStats in
  tryCatch
    (let* newAppointments := fetchNewAppointments in
     if (length newAppointments =? 0)%nat then ret stats
     else
       let* usersMap := fetchUsersMap in
       syncLoop usersMap stats newAppointments)
    (fun error => throw error).

(** *** The scheduler *)




(** ** The vocabulary of the statements

    Names for what the statements below speak about: the outcome of a
    read or of a write, the watermark a world stores, the requests of
    each kind, and what a call may or may not have touched. *)

Local Open Scope list_scope.

(** The rows a read gives, or the error it throws: the part the three
    reads of the service share. *)
Definition rowsOf (answer : Http.Response) : Completion (list (list string)) :=
  match answer with
  | Http.Rejected => Throw FetchFailed
  | Http.Resolved response =>
      if negb (Http.ok response) then Throw (httpError response)
      else match Http.json response with
           | Some data => Return (default [] (Http.values data))
           | None => Throw JsonFailed
           end
  end.

(** The outcome of a write: only the [ok] flag of the answer is read. *)
Definition writeOutcome (answer : Http.Response) : Completion unit :=
  match answer with
  | Http.Rejected => Throw FetchFailed
  | Http.Resolved response =>
      if negb (Http.ok response) then Throw (httpError response) else Return tt
  end.

Definition mapCompletion {A B} (f : A -> B) (c : Completion A) : Completion B :=
  match c with
  | Return a => Return (f a)
  | Throw e => Throw e
  end.

(** The number the stored value reads as. *)
Definition watermark (w : World) : Js.number :=
  match getLastProcessedRow w with
  | (Return n, _) => n
  | (Throw _, _) => Js.NaN
  end.

(** The world after [setLastProcessedRow rowNumber]. *)
Definition stored (rowNumber : Js.number) (w : World) : World :=
  {| localStorage := Some (Js.toString rowNumber);
     requests := requests w;
     setItems := setItems w ++ [Js.toString rowNumber] |}.

(** The three reads of the service and the write of a row. *)
Definition checkRequest (spreadsheetId : string) : Http.Request :=
  readRequest spreadsheetId "Sheet1!A:A".

Definition usersRequest (spreadsheetId : string) : Http.Request :=
  readRequest spreadsheetId "Sheet1!A2:C".

Definition masterRequest (spreadsheetId : string) (w : World) : Http.Request :=
  readRequest spreadsheetId (masterRange (Js.add (watermark w) (Js.Int 1))).

Definition appendRequest (spreadsheetId : string)
    (existingRows : list (list string)) (appointment : Appointment)
    : Http.Request :=
  writeRequest spreadsheetId
    (appendRange (Js.Int (Z.of_nat (length existingRows) + 1)))
    [appointmentRow appointment].

(** The directory resolves the email of [apt] to a sheet. *)
Definition matched (usersMap : gmap string string) (apt : Appointment) : bool :=
  match lookupUser usersMap (email apt) with
  | Some _ => true
  | None => false
  end.

(** The counter an iteration bumps after an append attempt. *)
Definition countOutcome (r : Completion unit) (stats : Stats) : Stats :=
  match r with
  | Return _ => countSynced stats
  | Throw _ => countError stats
  end.

(** [grown new w w'] : from [w] to [w'] the storage was not written and
    the log of requests grew by [new]. *)
Definition grown (new : list Http.Request) (w w' : World) : Prop :=
  localStorage w' = localStorage w /\
  setItems w' = setItems w /\
  requests w' = requests w ++ new.

Definition isRead (r : Http.Request) : Prop := Http.method r = Http.GET.

(** A request the append of [apt] to [sheet] may send: the read of column
    A, or the write of the row of [apt], both on the sheet [sheet] names. *)
Definition appendTraffic (sheet : string) (apt : Appointment)
    (r : Http.Request) : Prop :=
  exists spreadsheetId,
    extractSpreadsheetId sheet = Some spreadsheetId /\
    (r = checkRequest spreadsheetId \/
     exists existingRows, r = appendRequest spreadsheetId existingRows apt).

(** What the loop stores for a row: the decimal form of its index. *)
Definition rowWritten (apt : Appointment) : string := Js.toString (rowIndex apt).

(** The stored value after the loop wrote for the rows [apts], in order. *)
Definition lastWritten (apts : list Appointment) (before : option string)
    : option string :=
  match last apts with
  | Some apt => Some (rowWritten apt)
  | None => before
  end.

(** A request of the loop: one of the append of a row of the list to the
    sheet its email resolves to. *)
Definition loopTraffic (usersMap : gmap string string)
    (apts : list Appointment) (r : Http.Request) : Prop :=
  exists apt sheet,
    In apt apts /\ lookupUser usersMap (email apt) = Some sheet /\
    appendTraffic sheet apt r.

(** The stored form of the row number [k]. *)
Definition written (k : Z) : string := Js.toString (Js.Int k).

(** The storage as the service leaves it: empty, or holding the stored
    form of an integer. *)
Definition wellStored (w : World) : Prop :=
  localStorage w = None \/ exists k : Z, localStorage w = Some (written k).

(** The storage after the writes [ks], in order. *)
Definition storageAfter (ks : list Z) (before : option string) : option string :=
  match last ks with
  | Some k => Some (written k)
  | None => before
  end.

(** From [w] to [w'] nothing was written: the storage is as it was and
    the requests sent in between are all reads. *)
Definition untouched (w w' : World) : Prop :=
  localStorage w' = localStorage w /\
  setItems w' = setItems w /\
  exists new, requests w' = requests w ++ new /\ Forall isRead new.

(** The form in which emails are compared. *)
Definition normalize (s : string) : string := Js.trim (Js.toLowerCase s).

(** The cell [i] of a row, empty when the row is shorter. *)
Definition cell (row : list string) (i : nat) : string := default "" (row !! i).

(** Every character of [s] is one the id pattern accepts. *)
Fixpoint idChars (s : string) : bool :=
  match s with
  | EmptyString => true
  | String c s' => isIdChar c && idChars s'
  end.

(** The row [row] of the users sheet provides the directory with the
    entry [key] to [sheet]: it has an email cell and a sheet-id cell,
    both non-empty, the first normalizing to [key] and the second
    trimming to [sheet]. *)
Definition directoryRow (key sheet : string) (row : list string) : Prop :=
  exists e s,
    row !! 0%nat = Some e /\ row !! 2%nat = Some s /\
    Js.truthy e = true /\ Js.truthy s = true /\
    Js.trim (Js.toLowerCase e) = key /\ Js.trim s = sheet.

(** No entry for [key] comes from the row. *)
Definition silentOn (key : string) (row : list string) : Prop :=
  forall sheet, ~ directoryRow key sheet row.

(** The request is a write. *)
Definition isWrite (r : Http.Request) : bool :=
  match Http.method r with
  | Http.PUT => true
  | Http.GET => false
  end.



(** * Properties *)

(** ** Numbers written and read back *)

Example toLowerCase_trim_example :
  Js.trim (Js.toLowerCase "  Ann.Lee@Example.COM ") = "ann.lee@example.com".
Proof. reflexivity. Qed.

Example parseInt_examples :
  Js.parseInt "41" = Js.Int 41 /\ Js.parseInt " -7px" = Js.Int (-7)%Z /\
  Js.parseInt "row" = Js.NaN /\ Js.toString (Js.Int 120) = "120".
Proof. repeat split; reflexivity. Qed.

Example extractSpreadsheetId_examples :
  extractSpreadsheetId "" = None /\
  extractSpreadsheetId "1xftkSFb" = Some "1xftkSFb" /\
  extractSpreadsheetId "https://docs.google.com/spreadsheets/d/ab-1_Z/edit#gid=0"
    = Some "ab-1_Z" /\
  extractSpreadsheetId "sheets/ab" = None.
Proof. repeat split; reflexivity. Qed.

Lemma takeWhile_digits (d : Decimal.uint) :
  Js.takeWhile Js.isDigit (NilEmpty.string_of_uint d) = NilEmpty.string_of_uint d.
Proof.
  induction d as [|d IH|d IH|d IH|d IH|d IH|d IH|d IH|d IH|d IH|d IH];
    [reflexivity|..];
    cbn [NilEmpty.string_of_uint Js.takeWhile];
    (replace (Js.isDigit _) with true by reflexivity); now rewrite IH.
Qed.

Lemma parseDigits_uint (d : Decimal.uint) :
  d <> Decimal.Nil ->
  Js.parseDigits (NilEmpty.string_of_uint d) = Some (Z.of_uint d).
Proof.
  intros Hd. unfold Js.parseDigits. rewrite takeWhile_digits.
  destruct (NilEmpty.string_of_uint d) eqn:E.
  - destruct d; try discriminate E. now destruct Hd.
  - rewrite <- E, NilEmpty.usu. reflexivity.
Qed.

(** A printed unsigned number starts with a digit: [parseInt] neither
    skips anything nor sees a sign. *)
Lemma parseInt_uint (d : Decimal.uint) :
  d <> Decimal.Nil ->
  Js.parseInt (NilEmpty.string_of_uint d) = Js.Int (Z.of_uint d).
Proof.
  intros Hd. pose proof (parseDigits_uint d Hd) as P.
  destruct d; try (now destruct Hd);
    cbn [NilEmpty.string_of_uint] in *;
    unfold Js.parseInt; cbn [Js.trimStart];
    (replace (Js.isWhiteSpace _) with false by reflexivity);
    cbv iota beta; now rewrite P.
Qed.

Lemma string_of_uint_nonnil (d : Decimal.uint) :
  d <> Decimal.Nil ->
  NilZero.string_of_uint d = NilEmpty.string_of_uint d.
Proof. destruct d; try reflexivity. now intros []. Qed.

Lemma parseInt_toString (z : Z) :
  Js.parseInt (Js.toString (Js.Int z)) = Js.Int z.
Proof.
  destruct z as [|p|p]; [reflexivity| |].
  - cbn [Js.toString Z.to_int NilZero.string_of_int].
    pose proof (DecimalPos.Unsigned.to_uint_nonnil p) as Hn.
    rewrite (string_of_uint_nonnil _ Hn), parseInt_uint by assumption.
    unfold Z.of_uint. now rewrite DecimalPos.Unsigned.of_to.
  - cbn [Js.toString Z.to_int NilZero.string_of_int].
    pose proof (DecimalPos.Unsigned.to_uint_nonnil p) as Hn.
    rewrite (string_of_uint_nonnil _ Hn). unfold Js.parseInt. cbn [Js.trimStart].
    replace (Js.isWhiteSpace "-") with false by reflexivity.
    cbv iota beta.
    rewrite parseDigits_uint by assumption.
    unfold Z.of_uint. now rewrite DecimalPos.Unsigned.of_to.
Qed.

Lemma toString_truthy (n : Js.number) : Js.truthy (Js.toString n) = true.
Proof.
  destruct n as [z|]; [|reflexivity].
  destruct z as [|p|p]; [reflexivity| |reflexivity].
  cbn [Js.toString Z.to_int NilZero.string_of_int].
  unfold NilZero.string_of_uint.
  destruct (Pos.to_uint p); reflexivity.
Qed.

Lemma toString_Int_inj (a b : Z) :
  Js.toString (Js.Int a) = Js.toString (Js.Int b) -> a = b.
Proof.
  intros H. apply (f_equal Js.parseInt) in H.
  rewrite !parseInt_toString in H. congruence.
Qed.

(** ** What one call does *)

Lemma getLastProcessedRow_eq (w : World) :
  getLastProcessedRow w = (Return (watermark w), w).
Proof. reflexivity. Qed.

Lemma setLastProcessedRow_eq (n : Js.number) (w : World) :
  setLastProcessedRow n w = (Return tt, stored n w).
Proof. reflexivity. Qed.

Lemma watermark_stored (z : Z) (w : World) :
  watermark (stored (Js.Int z) w) = Js.Int z.
Proof.
  unfold watermark, getLastProcessedRow, stored; cbn [localStorage].
  now rewrite toString_truthy, parseInt_toString.
Qed.

Lemma watermark_sent (r : Http.Request) (w : World) :
  watermark (sent r w) = watermark w.
Proof. reflexivity. Qed.

Lemma watermark_storage (w w' : World) :
  localStorage w' = localStorage w -> watermark w' = watermark w.
Proof.
  unfold watermark, getLastProcessedRow. now intros ->.
Qed.

Lemma fetchNewAppointments_no_key (w : World) :
  Js.truthy GOOGLE_SHEETS_API_KEY = false ->
  fetchNewAppointments w = (Return [], w).
Proof. intros H. unfold fetchNewAppointments. now rewrite H. Qed.

Lemma fetchNewAppointments_bad_id (w : World) :
  Js.truthy GOOGLE_SHEETS_API_KEY = true ->
  extractSpreadsheetId MAIN_APPOINTMENTS_SHEET_ID = None ->
  fetchNewAppointments w
  = (Throw (Error "Invalid main appointments sheet ID format"), w).
Proof. intros H1 H2. unfold fetchNewAppointments. now rewrite H1, H2. Qed.

Lemma fetchNewAppointments_read (w : World) (spreadsheetId : string) :
  Js.truthy GOOGLE_SHEETS_API_KEY = true ->
  extractSpreadsheetId MAIN_APPOINTMENTS_SHEET_ID = Some spreadsheetId ->
  fetchNewAppointments w
  = (mapCompletion
       (parseAppointments (Js.add (watermark w) (Js.Int 1)))
       (rowsOf (net (requests w) (masterRequest spreadsheetId w))),
     sent (masterRequest spreadsheetId w) w).
Proof.
  intros H1 H2. unfold fetchNewAppointments. rewrite H1, H2. cbn [negb].
  unfold bind. rewrite getLastProcessedRow_eq.
  unfold fetch, masterRequest, rowsOf, responseJson, mapCompletion.
  destruct (net _ _) as [|response]; [reflexivity|].
  destruct (Http.ok response); cbn [negb]; [|reflexivity].
  destruct (Http.json response); reflexivity.
Qed.

Lemma fetchUsersMap_no_key (w : World) :
  Js.truthy GOOGLE_SHEETS_API_KEY = false ->
  fetchUsersMap w = (Return ∅, w).
Proof. intros H. unfold fetchUsersMap. now rewrite H. Qed.

Lemma fetchUsersMap_bad_id (w : World) :
  Js.truthy GOOGLE_SHEETS_API_KEY = true ->
  extractSpreadsheetId USERS_SHEET_ID = None ->
  fetchUsersMap w = (Throw (Error "Invalid users sheet ID format"), w).
Proof. intros H1 H2. unfold fetchUsersMap. now rewrite H1, H2. Qed.

Lemma fetchUsersMap_read (w : World) (spreadsheetId : string) :
  Js.truthy GOOGLE_SHEETS_API_KEY = true ->
  extractSpreadsheetId USERS_SHEET_ID = Some spreadsheetId ->
  fetchUsersMap w
  = (mapCompletion (fun rows => fold_left setUser rows ∅)
       (rowsOf (net (requests w) (usersRequest spreadsheetId))),
     sent (usersRequest spreadsheetId) w).
Proof.
  intros H1 H2. unfold fetchUsersMap. rewrite H1, H2. cbn [negb].
  unfold bind, fetch, usersRequest, rowsOf, responseJson, mapCompletion.
  destruct (net _ _) as [|response]; [reflexivity|].
  destruct (Http.ok response); cbn [negb]; [|reflexivity].
  destruct (Http.json response); reflexivity.
Qed.

Lemma append_no_key (sheet : string) (apt : Appointment) (w : World) :
  Js.truthy GOOGLE_SHEETS_API_KEY = false ->
  appendAppointmentToUserSheet sheet apt w
  = (Throw (Error "Google Sheets API key not configured"), w).
Proof. intros H. unfold appendAppointmentToUserSheet. now rewrite H. Qed.

Lemma append_bad_id (sheet : string) (apt : Appointment) (w : World) :
  Js.truthy GOOGLE_SHEETS_API_KEY = true ->
  extractSpreadsheetId sheet = None ->
  appendAppointmentToUserSheet sheet apt w
  = (Throw (Error "Invalid user spreadsheet ID format"), w).
Proof. intros H1 H2. unfold appendAppointmentToUserSheet. now rewrite H1, H2. Qed.

(** With a key and a well-formed sheet id, the append first reads column
    A of the user's sheet; when that read fails nothing is written, and
    otherwise the row is written just below the rows the read returned. *)
Lemma append_read (sheet spreadsheetId : string) (apt : Appointment) (w : World) :
  Js.truthy GOOGLE_SHEETS_API_KEY = true ->
  extractSpreadsheetId sheet = Some spreadsheetId ->
  appendAppointmentToUserSheet sheet apt w
  = match rowsOf (net (requests w) (checkRequest spreadsheetId)) with
    | Throw e => (Throw e, sent (checkRequest spreadsheetId) w)
    | Return existingRows =>
        let put := appendRequest spreadsheetId existingRows apt in
        (writeOutcome
           (net (requests (sent (checkRequest spreadsheetId) w)) put),
         sent put (sent (checkRequest spreadsheetId) w))
    end.
Proof.
  intros H1 H2. unfold appendAppointmentToUserSheet. rewrite H1, H2. cbn [negb].
  unfold bind at 1. unfold fetch at 1. fold (checkRequest spreadsheetId).
  unfold rowsOf.
  destruct (net (requests w) _) as [|response]; [reflexivity|].
  destruct (Http.ok response); cbn [negb]; [|reflexivity].
  unfold bind at 1. unfold responseJson.
  destruct (Http.json response) as [data|]; [|reflexivity].
  unfold ret at 1. cbv iota beta.
  unfold bind, fetch, appendRequest, writeOutcome. cbn [sent requests].
  destruct (net _ _) as [|response']; [reflexivity|].
  destruct (Http.ok response'); reflexivity.
Qed.

(** ** One iteration of the loop *)

Lemma syncAppointment_unmatched usersMap stats apt w :
  lookupUser usersMap (email apt) = None ->
  syncAppointment usersMap stats apt w
  = (Return (countError (countProcessed stats)), w).
Proof.
  intros H. unfold syncAppointment. now rewrite H.
Qed.

Lemma syncAppointment_matched usersMap stats apt sheet w :
  lookupUser usersMap (email apt) = Some sheet ->
  syncAppointment usersMap stats apt w
  = (Return (countOutcome (fst (appendAppointmentToUserSheet sheet apt w))
               (countProcessed stats)),
     stored (rowIndex apt) (snd (appendAppointmentToUserSheet sheet apt w))).
Proof.
  intros H. unfold syncAppointment. rewrite H.
  unfold bind, tryCatch, ret.
  destruct (appendAppointmentToUserSheet sheet apt w) as [[[]|e] w'];
    reflexivity.
Qed.

Lemma lookupUser_None_of_absent (usersMap : gmap string string) (e : string) :
  usersMap !! e = None -> lookupUser usersMap e = None.
Proof. intros H. unfold lookupUser. now rewrite H. Qed.


(** An iteration never throws. *)
Lemma syncAppointment_returns usersMap stats apt w :
  exists stats' w', syncAppointment usersMap stats apt w = (Return stats', w').
Proof.
  destruct (lookupUser usersMap (email apt)) as [sheet|] eqn:L.
  - rewrite (syncAppointment_matched _ _ _ _ _ L). eauto.
  - rewrite (syncAppointment_unmatched _ _ _ _ L). eauto.
Qed.

(** ** The loop *)

Lemma syncLoop_cons usersMap stats apt rest w stats' w' :
  syncAppointment usersMap stats apt w = (Return stats', w') ->
  syncLoop usersMap stats (apt :: rest) w = syncLoop usersMap stats' rest w'.
Proof. intros H. cbn [syncLoop]. unfold bind. now rewrite H. Qed.

Lemma syncLoop_returns usersMap apts :
  forall stats w,
    exists stats' w', syncLoop usersMap stats apts w = (Return stats', w').
Proof.
  induction apts as [|apt rest IH]; intros stats w.
  - cbn. unfold ret. eauto.
  - destruct (syncAppointment_returns usersMap stats apt w) as (s1 & w1 & H1).
    rewrite (syncLoop_cons _ _ _ _ _ _ _ H1). apply IH.
Qed.

Lemma syncLoop_app usersMap pre post :
  forall stats w stats' w',
    syncLoop usersMap stats pre w = (Return stats', w') ->
    syncLoop usersMap stats (pre ++ post) w = syncLoop usersMap stats' post w'.
Proof.
  induction pre as [|apt pre IH]; intros stats w stats' w' H.
  - cbn in H. unfold ret in H. injection H as -> ->. reflexivity.
  - destruct (syncAppointment_returns usersMap stats apt w) as (s1 & w1 & H1).
    cbn [app]. rewrite (syncLoop_cons _ _ _ _ _ _ _ H1).
    rewrite (syncLoop_cons _ _ _ _ _ _ _ H1) in H. now apply IH.
Qed.

(** Reaching one row of the list: the loop over the rows before it, then
    the iteration for the row, then the loop over the rest. *)
Lemma syncLoop_split usersMap pre apt post stats w :
  exists stats1 w1 stats2 w2,
    syncLoop usersMap stats pre w = (Return stats1, w1) /\
    syncAppointment usersMap stats1 apt w1 = (Return stats2, w2) /\
    syncLoop usersMap stats (pre ++ apt :: post) w
    = syncLoop usersMap stats2 post w2.
Proof.
  destruct (syncLoop_returns usersMap pre stats w) as (s1 & w1 & H1).
  destruct (syncAppointment_returns usersMap s1 apt w1) as (s2 & w2 & H2).
  exists s1, w1, s2, w2. repeat split; try assumption.
  rewrite (syncLoop_app _ _ _ _ _ _ _ H1). now apply syncLoop_cons.
Qed.

(** ** The whole run *)

Lemma rethrow_id {A} (m : Eff A) (w : World) :
  tryCatch m (fun error => throw error) w = m w.
Proof. unfold tryCatch, throw. now destruct (m w) as [[a|e] w']. Qed.

(** The run, by cases on the two reads. *)
Lemma syncAppointments_eq (w : World) :
  syncAppointments w
  = match fetchNewAppointments w with
    | (Throw e, w1) => (Throw e, w1)
    | (Return [], w1) => (Return noStats, w1)
    | (Return newAppointments, w1) =>
        match fetchUsersMap w1 with
        | (Throw e, w2) => (Throw e, w2)
        | (Return usersMap, w2) => syncLoop usersMap noStats newAppointments w2
        end
    end.
Proof.
  unfold syncAppointments. rewrite rethrow_id. unfold bind.
  destruct (fetchNewAppointments w) as [[[|apt rest]|e] w1]; reflexivity.
Qed.

(** With something to process and a directory, the run is the loop. *)
Lemma syncAppointments_loop (w w1 w2 : World) (apts : list Appointment)
    (usersMap : gmap string string) :
  fetchNewAppointments w = (Return apts, w1) ->
  apts <> [] ->
  fetchUsersMap w1 = (Return usersMap, w2) ->
  syncAppointments w = syncLoop usersMap noStats apts w2.
Proof.
  intros H1 Hne H2. rewrite syncAppointments_eq, H1.
  destruct apts as [|a l]; [now destruct Hne|]. now rewrite H2.
Qed.

Lemma app_cons_not_nil' {A} (pre post : list A) (a : A) :
  pre ++ a :: post <> [].
Proof. now destruct pre. Qed.

(** ** What a call leaves untouched *)

Lemma grown_refl (w : World) : grown [] w w.
Proof. unfold grown. now rewrite app_nil_r. Qed.

Lemma grown_sent (r : Http.Request) (w : World) : grown [r] w (sent r w).
Proof. now unfold grown. Qed.

Lemma grown_trans new1 new2 w1 w2 w3 :
  grown new1 w1 w2 -> grown new2 w2 w3 -> grown (new1 ++ new2) w1 w3.
Proof.
  intros (A1 & A2 & A3) (B1 & B2 & B3). unfold grown.
  rewrite B1, B2, B3, A1, A2, A3. now rewrite app_assoc.
Qed.

(** The scan sends at most one request, the read of the master sheet
    from the row after the watermark, and writes nothing. *)
Lemma fetchNewAppointments_grown (w : World) :
  grown [] w (snd (fetchNewAppointments w)) \/
  exists spreadsheetId,
    Js.truthy GOOGLE_SHEETS_API_KEY = true /\
    extractSpreadsheetId MAIN_APPOINTMENTS_SHEET_ID = Some spreadsheetId /\
    snd (fetchNewAppointments w) = sent (masterRequest spreadsheetId w) w.
Proof.
  destruct (Js.truthy GOOGLE_SHEETS_API_KEY) eqn:K.
  - destruct (extractSpreadsheetId MAIN_APPOINTMENTS_SHEET_ID) as [sid|] eqn:E.
    + right. exists sid. now rewrite (fetchNewAppointments_read _ _ K E).
    + left. rewrite (fetchNewAppointments_bad_id _ K E). apply grown_refl.
  - left. rewrite (fetchNewAppointments_no_key _ K). apply grown_refl.
Qed.

Lemma fetchUsersMap_grown (w : World) :
  grown [] w (snd (fetchUsersMap w)) \/
  exists spreadsheetId,
    extractSpreadsheetId USERS_SHEET_ID = Some spreadsheetId /\
    snd (fetchUsersMap w) = sent (usersRequest spreadsheetId) w.
Proof.
  destruct (Js.truthy GOOGLE_SHEETS_API_KEY) eqn:K.
  - destruct (extractSpreadsheetId USERS_SHEET_ID) as [sid|] eqn:E.
    + right. exists sid. now rewrite (fetchUsersMap_read _ _ K E).
    + left. rewrite (fetchUsersMap_bad_id _ K E). apply grown_refl.
  - left. rewrite (fetchUsersMap_no_key _ K). apply grown_refl.
Qed.

Lemma append_grown (sheet : string) (apt : Appointment) (w : World) :
  exists new,
    grown new w (snd (appendAppointmentToUserSheet sheet apt w)) /\
    Forall (appendTraffic sheet apt) new.
Proof.
  destruct (Js.truthy GOOGLE_SHEETS_API_KEY) eqn:K.
  - destruct (extractSpreadsheetId sheet) as [sid|] eqn:E.
    + rewrite (append_read _ _ _ _ K E).
      destruct (rowsOf _) as [existingRows|e].
      * exists [checkRequest sid; appendRequest sid existingRows apt]. split.
        -- apply (grown_trans [_] [_] _ _ _ (grown_sent _ _) (grown_sent _ _)).
        -- repeat constructor; exists sid; eauto.
      * exists [checkRequest sid]. split; [apply grown_sent|].
        repeat constructor. exists sid; eauto.
    + rewrite (append_bad_id _ _ _ K E). exists []. split; [apply grown_refl|constructor].
  - rewrite (append_no_key _ _ _ K). exists []. split; [apply grown_refl|constructor].
Qed.

(** ** What the loop does to the counters, the storage and the log *)

Lemma syncAppointment_counts usersMap stats apt w stats' w' :
  syncAppointment usersMap stats apt w = (Return stats', w') ->
  processed stats' = S (processed stats) /\
  ((synced stats' = S (synced stats) /\ errors stats' = errors stats) \/
   (synced stats' = synced stats /\ errors stats' = S (errors stats))).
Proof.
  destruct (lookupUser usersMap (email apt)) as [sheet|] eqn:L.
  - rewrite (syncAppointment_matched _ _ _ _ _ L). intros [= <- <-].
    destruct (fst (appendAppointmentToUserSheet sheet apt w)); cbn; auto.
  - rewrite (syncAppointment_unmatched _ _ _ _ L). intros [= <- <-].
    cbn; auto.
Qed.

Lemma syncLoop_counts usersMap apts :
  forall stats w stats' w',
    syncLoop usersMap stats apts w = (Return stats', w') ->
    processed stats' = (processed stats + length apts)%nat /\
    (synced stats' + errors stats'
     = synced stats + errors stats + length apts)%nat.
Proof.
  induction apts as [|apt rest IH]; intros stats w stats' w' H.
  - cbn in H. unfold ret in H. injection H as <- <-. cbn. lia.
  - destruct (syncAppointment_returns usersMap stats apt w) as (s1 & w1 & H1).
    rewrite (syncLoop_cons _ _ _ _ _ _ _ H1) in H.
    apply IH in H. apply syncAppointment_counts in H1. cbn [length]. lia.
Qed.

Lemma lastWritten_cons apt rest before :
  lastWritten (apt :: rest) before = lastWritten rest (Some (rowWritten apt)).
Proof.
  unfold lastWritten. destruct rest as [|b rest]; [reflexivity|].
  rewrite last_cons. now destruct (last (b :: rest)).
Qed.

Lemma syncAppointment_storage usersMap stats apt w stats' w' :
  syncAppointment usersMap stats apt w = (Return stats', w') ->
  setItems w'
  = setItems w ++ map rowWritten (List.filter (matched usersMap) [apt]) /\
  localStorage w'
  = lastWritten (List.filter (matched usersMap) [apt]) (localStorage w).
Proof.
  cbn [List.filter]. unfold matched.
  destruct (lookupUser usersMap (email apt)) as [sheet|] eqn:L.
  - rewrite (syncAppointment_matched _ _ _ _ _ L). intros [= <- <-].
    destruct (append_grown sheet apt w) as (new & (G1 & G2 & G3) & _).
    cbn. now rewrite G2.
  - rewrite (syncAppointment_unmatched _ _ _ _ L). intros [= <- <-].
    cbn. now rewrite app_nil_r.
Qed.

Lemma syncLoop_storage usersMap apts :
  forall stats w stats' w',
    syncLoop usersMap stats apts w = (Return stats', w') ->
    setItems w'
    = setItems w ++ map rowWritten (List.filter (matched usersMap) apts) /\
    localStorage w'
    = lastWritten (List.filter (matched usersMap) apts) (localStorage w).
Proof.
  induction apts as [|apt rest IH]; intros stats w stats' w' H.
  - cbn in H. unfold ret in H. injection H as <- <-. cbn.
    now rewrite app_nil_r.
  - destruct (syncAppointment_returns usersMap stats apt w) as (s1 & w1 & H1).
    rewrite (syncLoop_cons _ _ _ _ _ _ _ H1) in H.
    apply IH in H as [I1 I2]. apply syncAppointment_storage in H1 as [J1 J2].
    rewrite I1, I2, J1, J2. cbn [List.filter].
    destruct (matched usersMap apt); cbn [map app].
    + rewrite (lastWritten_cons apt (List.filter (matched usersMap) rest)).
      split; [|reflexivity]. now rewrite <- app_assoc.
    + now rewrite app_nil_r.
Qed.

Lemma syncLoop_requests usersMap apts :
  forall stats w stats' w',
    syncLoop usersMap stats apts w = (Return stats', w') ->
    exists new,
      requests w' = requests w ++ new /\
      Forall (loopTraffic usersMap apts) new.
Proof.
  induction apts as [|apt rest IH]; intros stats w stats' w' H.
  - cbn in H. unfold ret in H. injection H as <- <-. exists [].
    now rewrite app_nil_r.
  - destruct (syncAppointment_returns usersMap stats apt w) as (s1 & w1 & H1).
    rewrite (syncLoop_cons _ _ _ _ _ _ _ H1) in H.
    apply IH in H as (new2 & R2 & F2).
    assert (exists new1, requests w1 = requests w ++ new1 /\
              Forall (loopTraffic usersMap (apt :: rest)) new1)
      as (new1 & R1 & F1).
    { destruct (lookupUser usersMap (email apt)) as [sheet|] eqn:L.
      - rewrite (syncAppointment_matched _ _ _ _ _ L) in H1.
        injection H1 as _ <-.
        destruct (append_grown sheet apt w) as (new & (_ & _ & G3) & T).
        exists new. split; [exact G3|].
        eapply Forall_impl; [exact T|]. intros r Hr.
        exists apt, sheet. repeat split; [now left|assumption|assumption].
      - rewrite (syncAppointment_unmatched _ _ _ _ L) in H1.
        injection H1 as _ <-. exists []. now rewrite app_nil_r. }
    exists (new1 ++ new2). split.
    + now rewrite R2, R1, app_assoc.
    + apply Forall_app. split; [assumption|].
      eapply Forall_impl; [exact F2|].
      intros r (a & s & Ha & Hl & Ht). exists a, s.
      repeat split; [now right|assumption|assumption].
Qed.

(** ** The rows the scan returns *)

Lemma parseAppointment_shift (s : Z) (i : nat) (row : list string) :
  parseAppointment (Js.Int s) (S i) row
  = parseAppointment (Js.Int (s + 1)) i row.
Proof.
  unfold parseAppointment. cbn [Js.add]. do 2 f_equal. lia.
Qed.

Lemma filter_filter {A} (p q : A -> bool) (l : list A) :
  List.filter q (List.filter p l) = List.filter (fun a => p a && q a) l.
Proof.
  induction l as [|a l IH]; [reflexivity|]. cbn [List.filter].
  destruct (p a); cbn [List.filter andb]; [|assumption].
  destruct (q a); now rewrite IH.
Qed.

(** Whatever rows are kept, their indices are integers that increase
    strictly, from the start row on. *)
Lemma kept_indices (keep : Appointment -> bool) (rows : list (list string)) :
  forall s : Z,
    exists ks : list Z,
      map rowIndex (List.filter keep (imap (parseAppointment (Js.Int s)) rows))
      = map Js.Int ks /\
      StronglySorted Z.lt ks /\ Forall (fun k => (s <= k)%Z) ks.
Proof.
  induction rows as [|row rows IH]; intros s.
  - exists []. repeat split; constructor.
  - cbn [imap].
    rewrite (imap_ext _ (parseAppointment (Js.Int (s + 1))))
      by (intros; apply parseAppointment_shift).
    destruct (IH (s + 1)%Z) as (ks & E & S & F).
    assert (F' : Forall (fun k => (s < k)%Z) ks).
    { eapply Forall_impl; [exact F|]. cbn. intros; lia. }
    cbn [List.filter]. destruct (keep _).
    + exists (s :: ks). cbn [map]. rewrite E. repeat split.
      * cbn. do 2 f_equal. lia.
      * now constructor.
      * constructor; [lia|]. eapply Forall_impl; [exact F'|]. cbn. intros; lia.
    + exists ks. repeat split; try assumption.
      eapply Forall_impl; [exact F'|]. cbn. intros; lia.
Qed.

Lemma parseAppointments_In (startRow : Js.number) (rows : list (list string))
    (apt : Appointment) :
  In apt (parseAppointments startRow rows) <->
  exists index row,
    rows !! index = Some row /\
    apt = parseAppointment startRow index row /\
    nonEmpty apt = true.
Proof.
  unfold parseAppointments. rewrite filter_In, <- list_elem_of_In.
  rewrite elem_of_lookup_imap. split.
  - intros [(i & row & -> & L) N]. eauto.
  - intros (i & row & L & -> & N). eauto.
Qed.

(** What the scan returns is the empty list (no key) or the parsed rows
    of the answer, numbered from the row after the watermark. *)
Lemma fetchNewAppointments_result (w : World) (apts : list Appointment) :
  fst (fetchNewAppointments w) = Return apts ->
  apts = [] \/
  exists rows,
    apts = parseAppointments (Js.add (watermark w) (Js.Int 1)) rows.
Proof.
  destruct (Js.truthy GOOGLE_SHEETS_API_KEY) eqn:K.
  - destruct (extractSpreadsheetId MAIN_APPOINTMENTS_SHEET_ID) as [sid|] eqn:E.
    + rewrite (fetchNewAppointments_read _ _ K E). cbn [fst].
      destruct (rowsOf _) as [rows|e]; cbn; [|discriminate].
      intros [= <-]. right. eauto.
    + rewrite (fetchNewAppointments_bad_id _ K E). discriminate.
  - rewrite (fetchNewAppointments_no_key _ K). intros [= <-]. now left.
Qed.

Lemma fetchNewAppointments_storage (w : World) :
  localStorage (snd (fetchNewAppointments w)) = localStorage w /\
  setItems (snd (fetchNewAppointments w)) = setItems w.
Proof.
  destruct (fetchNewAppointments_grown w) as [(A & B & _)|(sid & _ & _ & ->)];
    auto.
Qed.

Lemma fetchUsersMap_storage (w : World) :
  localStorage (snd (fetchUsersMap w)) = localStorage w /\
  setItems (snd (fetchUsersMap w)) = setItems w.
Proof.
  destruct (fetchUsersMap_grown w) as [(A & B & _)|(sid & _ & ->)]; auto.
Qed.

Lemma watermark_of_storage (w : World) (k : Z) :
  localStorage w = Some (Js.toString (Js.Int k)) -> watermark w = Js.Int k.
Proof.
  intros H. unfold watermark, getLastProcessedRow. rewrite H.
  now rewrite toString_truthy, parseInt_toString.
Qed.

(** ** The writes of a run *)

Lemma loop_writes usersMap rows (s : Z) stats w stats' w' :
  syncLoop usersMap stats (parseAppointments (Js.Int s) rows) w
  = (Return stats', w') ->
  exists ks : list Z,
    setItems w' = setItems w ++ map written ks /\
    localStorage w' = storageAfter ks (localStorage w) /\
    StronglySorted Z.lt ks /\ Forall (fun k => (s <= k)%Z) ks.
Proof.
  intros H. apply syncLoop_storage in H as [H1 H2].
  unfold parseAppointments in H1, H2. rewrite filter_filter in H1, H2.
  destruct (kept_indices (fun a => nonEmpty a && matched usersMap a) rows s)
    as (ks & E & S & F).
  exists ks. repeat split; try assumption.
  - rewrite H1. f_equal. unfold rowWritten.
    rewrite <- (map_map rowIndex Js.toString), E, map_map. reflexivity.
  - rewrite H2. unfold lastWritten, storageAfter.
    assert (L : rowIndex <$> last (List.filter
                  (fun a => nonEmpty a && matched usersMap a)
                  (imap (parseAppointment (Js.Int s)) rows))
                = Js.Int <$> last ks).
    { rewrite <- !fmap_last. exact (f_equal last E). }
    destruct (last (List.filter _ _)) as [apt|], (last ks) as [k|];
      cbn in L; try discriminate; [|reflexivity].
    injection L as L. unfold rowWritten, written. now rewrite L.
Qed.

Lemma watermark_storageAfter (ks : list Z) (w w' : World) (before : Z) :
  watermark w = Js.Int before ->
  Forall (fun k => (before < k)%Z) ks ->
  localStorage w' = storageAfter ks (localStorage w) ->
  exists after, watermark w' = Js.Int after /\ (before <= after)%Z.
Proof.
  intros W F H. unfold storageAfter in H.
  destruct (last ks) as [k|] eqn:L.
  - exists k. split; [now apply watermark_of_storage|].
    apply last_Some_elem_of in L. rewrite Forall_forall in F.
    apply F in L. lia.
  - exists before. split; [|lia]. now rewrite (watermark_storage _ _ H).
Qed.

(** The writes of a whole run: none when a read fails or nothing is
    new, those of the loop otherwise; all beyond the watermark read at
    the start, each beyond the one before. *)
Lemma run_writes (w : World) (before : Z) :
  watermark w = Js.Int before ->
  exists ks : list Z,
    setItems (snd (syncAppointments w)) = setItems w ++ map written ks /\
    localStorage (snd (syncAppointments w))
    = storageAfter ks (localStorage w) /\
    StronglySorted Z.lt ks /\ Forall (fun k => (before < k)%Z) ks.
Proof.
  intros W.
  assert (Z : exists ks : list Z,
             setItems w = setItems w ++ map written ks /\
             localStorage w = storageAfter ks (localStorage w) /\
             StronglySorted Z.lt ks /\ Forall (fun k => (before < k)%Z) ks).
  { exists []. cbn. rewrite app_nil_r. repeat split; constructor. }
  rewrite syncAppointments_eq.
  pose proof (fetchNewAppointments_storage w) as [S1 S2].
  pose proof (fetchNewAppointments_result w) as R.
  destruct (fetchNewAppointments w) as [[apts|e] w1]; cbn [fst snd] in *.
  2: { now rewrite S1, S2. }
  destruct apts as [|apt apts]; cbn [snd]; [now rewrite S1, S2|].
  pose proof (fetchUsersMap_storage w1) as [T1 T2].
  destruct (fetchUsersMap w1) as [[usersMap|e] w2]; cbn [fst snd] in *.
  2: { now rewrite T1, T2, S1, S2. }
  destruct (R _ eq_refl) as [R'|(rows & R')]; [discriminate|].
  rewrite R', W. cbn [Js.add].
  destruct (syncLoop_returns usersMap (parseAppointments (Js.Int (before + 1)) rows)
              noStats w2) as (st & w3 & H).
  rewrite H. cbn [snd].
  apply loop_writes in H as (ks & H1 & H2 & H3 & H4).
  exists ks. rewrite H1, H2, T1, T2, S1, S2. repeat split; try assumption.
  eapply Forall_impl; [exact H4|]. cbn. intros; lia.
Qed.

(** A storage the service alone has written reads as an integer, and a
    run keeps it so. *)
Lemma wellStored_watermark (w : World) :
  wellStored w -> exists k : Z, watermark w = Js.Int k.
Proof.
  intros [H|(k & H)].
  - exists 1%Z. unfold watermark, getLastProcessedRow. now rewrite H.
  - exists k. now apply watermark_of_storage.
Qed.

Lemma wellStored_run (w : World) :
  wellStored w -> wellStored (snd (syncAppointments w)).
Proof.
  intros H. destruct (wellStored_watermark w H) as (before & W).
  destruct (run_writes w before W) as (ks & _ & S & _).
  unfold wellStored. rewrite S. unfold storageAfter.
  destruct (last ks) as [k|]; [right; eauto|exact H].
Qed.

(** ** The three kinds of read are told apart by their range *)

Lemma chars_app (a b : string) :
  list_ascii_of_string (a ++ b)%string
  = list_ascii_of_string a ++ list_ascii_of_string b.
Proof.
  induction a as [|c a IH]; [reflexivity|].
  cbn [list_ascii_of_string]. change (String c a ++ b)%string
    with (String c (a ++ b)%string). cbn [list_ascii_of_string app].
  now rewrite IH.
Qed.

Lemma chars_inj (a b : string) :
  list_ascii_of_string a = list_ascii_of_string b -> a = b.
Proof.
  intros H. apply (f_equal string_of_list_ascii) in H.
  now rewrite !string_of_list_ascii_of_string in H.
Qed.

(** Two URLs built for ranges that end differently differ. *)
Lemma readUrl_tail (id1 id2 r1 r2 : string) (c1 c2 : ascii) :
  c1 <> c2 ->
  readUrl id1 (r1 ++ String c1 "")%string
  <> readUrl id2 (r2 ++ String c2 "")%string.
Proof.
  intros Hc H. unfold readUrl in H.
  apply (f_equal list_ascii_of_string) in H.
  rewrite !chars_app in H. rewrite !app_assoc in H.
  do 2 apply app_inv_tail in H.
  apply app_inj_tail in H as [_ H]. congruence.
Qed.

Lemma masterRange_tail (n : Js.number) :
  masterRange n = (("Sheet1!A" ++ Js.toString n ++ ":") ++ "G")%string.
Proof.
  unfold masterRange.
  apply chars_inj. now rewrite !chars_app, <- !app_assoc.
Qed.

Lemma masterRequest_not_usersRequest (id1 id2 : string) (w : World) :
  masterRequest id1 w <> usersRequest id2.
Proof.
  intros H. apply (f_equal Http.url) in H.
  unfold masterRequest, usersRequest, readRequest in H. cbn [Http.url] in H.
  rewrite masterRange_tail in H.
  change "Sheet1!A2:C" with ("Sheet1!A2:" ++ "C")%string in H.
  now apply readUrl_tail in H.
Qed.

Lemma checkRequest_not_usersRequest (id1 id2 : string) :
  checkRequest id1 <> usersRequest id2.
Proof.
  intros H. apply (f_equal Http.url) in H.
  unfold checkRequest, usersRequest, readRequest in H. cbn [Http.url] in H.
  change "Sheet1!A:A" with ("Sheet1!A:" ++ "A")%string in H.
  change "Sheet1!A2:C" with ("Sheet1!A2:" ++ "C")%string in H.
  now apply readUrl_tail in H.
Qed.

(** ** The claims about a run *)

Lemma untouched_refl (w : World) : untouched w w.
Proof.
  repeat split. exists []. now rewrite app_nil_r.
Qed.

Lemma untouched_trans (w1 w2 w3 : World) :
  untouched w1 w2 -> untouched w2 w3 -> untouched w1 w3.
Proof.
  intros (A1 & A2 & n1 & A3 & A4) (B1 & B2 & n2 & B3 & B4).
  repeat split; [congruence|congruence|].
  exists (n1 ++ n2). split; [now rewrite B3, A3, app_assoc|].
  now apply Forall_app.
Qed.

Lemma fetchNewAppointments_untouched (w : World) :
  untouched w (snd (fetchNewAppointments w)).
Proof.
  destruct (fetchNewAppointments_grown w) as [(A & B & C)|(id & _ & _ & ->)].
  - repeat split; try assumption. exists []. now split.
  - repeat split. exists [masterRequest id w]. split; [reflexivity|].
    now repeat constructor.
Qed.

Lemma fetchUsersMap_untouched (w : World) :
  untouched w (snd (fetchUsersMap w)).
Proof.
  destruct (fetchUsersMap_grown w) as [(A & B & C)|(id & _ & ->)].
  - repeat split; try assumption. exists []. now split.
  - repeat split. exists [usersRequest id]. split; [reflexivity|].
    now repeat constructor.
Qed.

Lemma syncLoop_errors_mono usersMap apts :
  forall stats w stats' w',
    syncLoop usersMap stats apts w = (Return stats', w') ->
    (errors stats <= errors stats')%nat.
Proof.
  induction apts as [|apt rest IH]; intros stats w stats' w' H.
  - cbn in H. unfold ret in H. injection H as <- <-. lia.
  - destruct (syncAppointment_returns usersMap stats apt w) as (s1 & w1 & H1).
    rewrite (syncLoop_cons _ _ _ _ _ _ _ H1) in H.
    apply IH in H. apply syncAppointment_counts in H1. lia.
Qed.

Lemma run_counts (w : World) (stats : Stats) (w' : World) :
  syncAppointments w = (Return stats, w') ->
  exists newAppointments w1,
    fetchNewAppointments w = (Return newAppointments, w1) /\
    processed stats = length newAppointments /\
    processed stats = (synced stats + errors stats)%nat.
Proof.
  intros H. rewrite syncAppointments_eq in H.
  destruct (fetchNewAppointments w) as [[apts|e] w1]; [|discriminate].
  exists apts, w1. split; [reflexivity|].
  destruct apts as [|apt apts]; [injection H as <- <-; now cbn|].
  destruct (fetchUsersMap w1) as [[usersMap|e] w2]; [|discriminate].
  apply syncLoop_counts in H as [P Q]. cbn in P, Q. cbn [length]. lia.
Qed.

(** C5. Re-running with no new rows is a no-op: when the scan of the
    master sheet returns no appointment, [syncAppointments] returns zero
    processed, zero synced and zero errors, ends in the state the scan
    left, in which the stored watermark is what it was and nothing was
    written to the storage, and the requests sent are reads none of which
    is the read of the user directory, so that no user sheet is written. *)
Theorem no_new_rows_is_noop (w w1 : World) :
  fetchNewAppointments w = (Return [], w1) ->
  syncAppointments w
  = (Return {| processed := 0; synced := 0; errors := 0 |}, w1) /\
  localStorage w1 = localStorage w /\
  setItems w1 = setItems w /\
  exists new,
    requests w1 = requests w ++ new /\
    Forall (fun r => Http.method r = Http.GET /\
                     forall spreadsheetId, r <> usersRequest spreadsheetId) new.
Proof.
  intros H. split; [rewrite syncAppointments_eq; now rewrite H|].
  destruct (fetchNewAppointments_grown w) as [G|(id & _ & _ & G)];
    rewrite H in G; cbn [snd] in G.
  - destruct G as (A & B & C). repeat split; try assumption.
    exists []. now split.
  - subst w1. repeat split. exists [masterRequest id w].
    split; [reflexivity|]. repeat constructor.
    intros id'. apply masterRequest_not_usersRequest.
Qed.

(** C6. A failure of the read of the master sheet, or of the read of the
    user directory, aborts the run: [syncAppointments] throws the same
    error, and up to there the stored watermark is unchanged, nothing was
    written to the storage and only reads were sent.  Once both reads
    have succeeded the run returns its counts, whatever happens to the
    rows: an iteration whose append throws catches the error and counts
    the row in errors. *)
Theorem fetch_failures_abort_the_run (w : World) :
  match fetchNewAppointments w with
  | (Throw e, w1) => syncAppointments w = (Throw e, w1) /\ untouched w w1
  | (Return newAppointments, w1) =>
      newAppointments <> [] ->
      match fetchUsersMap w1 with
      | (Throw e, w2) => syncAppointments w = (Throw e, w2) /\ untouched w w2
      | (Return usersMap, w2) =>
          exists stats w3, syncAppointments w = (Return stats, w3)
      end
  end /\
  (forall usersMap stats apt sheet w0,
     lookupUser usersMap (email apt) = Some sheet ->
     forall e, fst (appendAppointmentToUserSheet sheet apt w0) = Throw e ->
     fst (syncAppointment usersMap stats apt w0)
     = Return (countError (countProcessed stats))).
Proof.
  split.
  - rewrite syncAppointments_eq.
    pose proof (fetchNewAppointments_untouched w) as U1.
    destruct (fetchNewAppointments w) as [[apts|e] w1]; cbn [snd] in U1.
    + intros Hne. destruct apts as [|apt apts]; [now destruct Hne|].
      pose proof (fetchUsersMap_untouched w1) as U2.
      destruct (fetchUsersMap w1) as [[usersMap|e] w2]; cbn [snd] in U2.
      * apply syncLoop_returns.
      * split; [reflexivity|]. now apply (untouched_trans w w1 w2).
    + now split.
  - intros usersMap stats apt sheet w0 L e T.
    rewrite (syncAppointment_matched _ _ _ _ _ L). cbn [fst]. now rewrite T.
Qed.

(** C7. In a run that completes, [processed] is the number of
    appointments the scan returned, each of which the loop handled;
    every iteration adds one to [processed] and one to exactly one of
    [synced] and [errors]; hence [processed = synced + errors]. *)
Theorem counts_add_up (w : World) (stats : Stats) (w' : World) :
  syncAppointments w = (Return stats, w') ->
  (exists newAppointments w1,
     fetchNewAppointments w = (Return newAppointments, w1) /\
     processed stats = length newAppointments) /\
  (forall usersMap stats0 apt w0 stats1 w1,
     syncAppointment usersMap stats0 apt w0 = (Return stats1, w1) ->
     processed stats1 = S (processed stats0) /\
     ((synced stats1 = S (synced stats0) /\ errors stats1 = errors stats0) \/
      (synced stats1 = synced stats0 /\ errors stats1 = S (errors stats0)))) /\
  processed stats = (synced stats + errors stats)%nat.
Proof.
  intros H. destruct (run_counts _ _ _ H) as (apts & w1 & F & P & Q).
  split; [eauto|]. split; [|assumption].
  intros *. apply syncAppointment_counts.
Qed.

(** C4. A row the scan returned whose lower-cased, trimmed email has no
    entry in the user directory: when the loop reaches it, the iteration
    counts the row in processed and in errors and leaves the world as it
    was, so that no request at all, and in particular no write to a user
    sheet, is sent for it; the run goes on with the rows after it and the
    error stays counted in what the run returns. *)
Theorem unmatched_row_is_counted_not_written
    (w w1 w2 : World) (usersMap : gmap string string)
    (pre post : list Appointment) (apt : Appointment) :
  fetchNewAppointments w = (Return (pre ++ apt :: post), w1) ->
  fetchUsersMap w1 = (Return usersMap, w2) ->
  usersMap !! email apt = None ->
  exists stats wa,
    syncLoop usersMap noStats pre w2 = (Return stats, wa) /\
    syncAppointment usersMap stats apt wa
    = (Return {| processed := S (processed stats); synced := synced stats;
                 errors := S (errors stats) |}, wa) /\
    exists final w',
      syncAppointments w = (Return final, w') /\
      syncLoop usersMap (countError (countProcessed stats)) post wa
      = (Return final, w') /\
      (errors stats < errors final)%nat.
Proof.
  intros H1 H2 L. apply lookupUser_None_of_absent in L.
  destruct (syncLoop_returns usersMap pre noStats w2) as (stats & wa & P).
  exists stats, wa. split; [assumption|].
  pose proof (syncAppointment_unmatched usersMap stats apt wa L) as I.
  split; [exact I|].
  destruct (syncLoop_returns usersMap post (countError (countProcessed stats)) wa)
    as (final & w' & Q).
  exists final, w'. repeat split; try assumption.
  - rewrite (syncAppointments_loop _ _ _ _ _ H1 (app_cons_not_nil' _ _ _) H2).
    rewrite (syncLoop_app _ _ _ _ _ _ _ P).
    now rewrite (syncLoop_cons _ _ _ _ _ _ _ I).
  - apply syncLoop_errors_mono in Q. cbn in Q. lia.
Qed.

(** ** The contract of the job *)

Lemma setUser_lookup (usersMap : gmap string string) (row : list string)
    (key sheet : string) :
  setUser usersMap row !! key = Some sheet ->
  usersMap !! key = Some sheet \/
  exists e s,
    row !! 0%nat = Some e /\ row !! 2%nat = Some s /\
    key = normalize e /\ sheet = Js.trim s.
Proof.
  unfold setUser.
  destruct (row !! 0%nat) as [e|]; [|now left].
  destruct (row !! 2%nat) as [s|]; [|now left].
  destruct (Js.truthy e && Js.truthy s); [|now left].
  destruct (decide (normalize e = key)) as [<-|Hne].
  - unfold normalize. rewrite lookup_insert_eq. intros [= <-]. right.
    exists e, s. auto.
  - unfold normalize in Hne. rewrite lookup_insert_ne by assumption. now left.
Qed.

(** Every key of the directory is the lower-cased, trimmed email cell of
    a row of the users sheet, and its value the trimmed sheet-id cell of
    that row. *)
Lemma directory_keys (rows : list (list string)) :
  forall (start : gmap string string) (key sheet : string),
    fold_left setUser rows start !! key = Some sheet ->
    start !! key = Some sheet \/
    exists row e s,
      In row rows /\ row !! 0%nat = Some e /\ row !! 2%nat = Some s /\
      key = normalize e /\ sheet = Js.trim s.
Proof.
  induction rows as [|row rows IH]; intros start key sheet H; [now left|].
  cbn [fold_left] in H. apply IH in H as [H|(r & e & s & I & H)].
  - apply setUser_lookup in H as [H|(e & s & H)]; [now left|].
    right. exists row, e, s. split; [now left|assumption].
  - right. exists r, e, s. split; [now right|assumption].
Qed.

Lemma fetchNewAppointments_some (w w1 : World) (apts : list Appointment) :
  fetchNewAppointments w = (Return apts, w1) -> apts <> [] ->
  Js.truthy GOOGLE_SHEETS_API_KEY = true /\
  exists spreadsheetId rows,
    extractSpreadsheetId MAIN_APPOINTMENTS_SHEET_ID = Some spreadsheetId /\
    w1 = sent (masterRequest spreadsheetId w) w /\
    rowsOf (net (requests w) (masterRequest spreadsheetId w)) = Return rows /\
    apts = parseAppointments (Js.add (watermark w) (Js.Int 1)) rows.
Proof.
  intros H Hne.
  destruct (Js.truthy GOOGLE_SHEETS_API_KEY) eqn:K.
  - split; [reflexivity|].
    destruct (extractSpreadsheetId MAIN_APPOINTMENTS_SHEET_ID) as [id|] eqn:E.
    + rewrite (fetchNewAppointments_read _ _ K E) in H.
      destruct (rowsOf _) as [rows|e] eqn:R; cbn in H; [|discriminate].
      injection H as <- <-. exists id, rows. auto.
    + rewrite (fetchNewAppointments_bad_id _ K E) in H. discriminate.
  - rewrite (fetchNewAppointments_no_key _ K) in H. injection H as <- <-.
    now destruct Hne.
Qed.


(** The requests of an append that gets through its first read. *)
Lemma append_requests (sheet spreadsheetId : string) (apt : Appointment)
    (w : World) (existingRows : list (list string)) :
  Js.truthy GOOGLE_SHEETS_API_KEY = true ->
  extractSpreadsheetId sheet = Some spreadsheetId ->
  rowsOf (net (requests w) (checkRequest spreadsheetId)) = Return existingRows ->
  requests (snd (appendAppointmentToUserSheet sheet apt w))
  = requests w ++ [checkRequest spreadsheetId;
                   appendRequest spreadsheetId existingRows apt].
Proof.
  intros K E R. rewrite (append_read _ _ _ _ K E), R. cbn.
  now rewrite <- app_assoc.
Qed.



(** ** What a run writes to the user sheets *)

Lemma appendTraffic_write sheet apt r :
  appendTraffic sheet apt r ->
  Http.method r = Http.PUT ->
  Http.body r = Some [appointmentRow apt].
Proof.
  intros (id & _ & [->|(existing & ->)]) M; [discriminate M|reflexivity].
Qed.

(** Every write a run sends carries the row of an appointment the scan
    returned whose email the directory resolves. *)
Lemma run_requests (w : World) :
  exists new,
    requests (snd (syncAppointments w)) = requests w ++ new /\
    Forall (fun r =>
              Http.method r = Http.PUT ->
              exists apts apt,
                fst (fetchNewAppointments w) = Return apts /\
                In apt apts /\ Http.body r = Some [appointmentRow apt]) new.
Proof.
  assert (R : forall w', untouched w w' ->
            exists new,
              requests w' = requests w ++ new /\
              Forall (fun r =>
                Http.method r = Http.PUT ->
                exists apts apt,
                  fst (fetchNewAppointments w) = Return apts /\
                  In apt apts /\ Http.body r = Some [appointmentRow apt]) new).
  { intros w' (_ & _ & new & E & F). exists new. split; [assumption|].
    eapply Forall_impl; [exact F|]. unfold isRead. intros r G P. congruence. }
  rewrite syncAppointments_eq.
  pose proof (fetchNewAppointments_untouched w) as U1.
  destruct (fetchNewAppointments w) as [[apts|e] w1] eqn:H1; cbn [fst snd] in *.
  2: { now apply R. }
  destruct apts as [|apt apts]; cbn [snd]; [now apply R|].
  pose proof (fetchUsersMap_untouched w1) as U2.
  pose proof (untouched_trans _ _ _ U1 U2) as U.
  destruct (fetchUsersMap w1) as [[usersMap|e] w2]; cbn [snd] in *.
  2: { now apply R. }
  destruct (syncLoop_returns usersMap (apt :: apts) noStats w2) as (st & w3 & L).
  rewrite L. cbn [snd].
  apply syncLoop_requests in L as (new2 & E2 & F2).
  destruct (R _ U) as (new1 & E1 & F1).
  exists (new1 ++ new2). split; [now rewrite E2, E1, app_assoc|].
  apply Forall_app. split; [assumption|].
  eapply Forall_impl; [exact F2|].
  intros r (a & sheet & I & _ & T) P. exists (apt :: apts), a.
  repeat split; [assumption|]. now apply (appendTraffic_write sheet).
Qed.

Lemma or_else_cell (row : list string) (i : nat) :
  Js.or_else (row !! i) "" = cell row i.
Proof. unfold cell. destruct (row !! i) as [[|c s]|]; reflexivity. Qed.

Lemma or_else_status (row : list string) :
  Js.or_else (row !! 6%nat) "scheduled"
  = if Js.truthy (cell row 6) then cell row 6 else "scheduled".
Proof. unfold cell. destruct (row !! 6%nat) as [[|c s]|]; reflexivity. Qed.

Lemma appointmentRow_parse (startRow : Js.number) (index : nat)
    (row : list string) :
  appointmentRow (parseAppointment startRow index row)
  = [ cell row 0; Js.trim (Js.toLowerCase (cell row 1)); cell row 2;
      cell row 3; cell row 4; cell row 5;
      if Js.truthy (cell row 6) then cell row 6 else "scheduled" ].
Proof.
  unfold appointmentRow, parseAppointment;
    cbn [patientName email phoneNumber reportUrl date startTime status].
  now rewrite !or_else_cell, or_else_status.
Qed.

(** C10. The row written to a user's sheet for a master row: every write
    request the append sends has as its body the single row made of the
    master row's patient name, the lower-cased and trimmed form of its
    email, then its phone number, report URL, date and start time as
    they are, and its status, or scheduled when the status cell is empty;
    and once the read of column A of the sheet succeeds with n rows, the
    append sends that read and then the PUT of this row, as the only row
    of the body, to the range Sheet1!A(n+1):G(n+1) of the sheet. *)
Theorem appended_row_fields
    (sheet : string) (startRow : Js.number) (index : nat)
    (row : list string) (w : World) :
  let appointment := parseAppointment startRow index row in
  let written :=
    [ cell row 0; Js.trim (Js.toLowerCase (cell row 1)); cell row 2;
      cell row 3; cell row 4; cell row 5;
      if Js.truthy (cell row 6) then cell row 6 else "scheduled" ] in
  let read (spreadsheetId : string) : Http.Request :=
    {| Http.method := Http.GET;
       Http.url := ("https://sheets.googleapis.com/v4/spreadsheets" ++ "/"
                    ++ spreadsheetId ++ "/values/" ++ "Sheet1!A:A"
                    ++ "?key=" ++ GOOGLE_SHEETS_API_KEY)%string;
       Http.body := None |} in
  let write (spreadsheetId : string) (n : Z) : Http.Request :=
    {| Http.method := Http.PUT;
       Http.url := ("https://sheets.googleapis.com/v4/spreadsheets" ++ "/"
                    ++ spreadsheetId ++ "/values/"
                    ++ ("Sheet1!A" ++ Js.toString (Js.Int n)
                        ++ ":G" ++ Js.toString (Js.Int n))
                    ++ "?valueInputOption=RAW&key="
                    ++ GOOGLE_SHEETS_API_KEY)%string;
       Http.body := Some [written] |} in
  (exists new,
     requests (snd (appendAppointmentToUserSheet sheet appointment w))
     = requests w ++ new /\
     Forall (fun r => Http.method r = Http.PUT ->
                      Http.body r = Some [written]) new) /\
  (forall spreadsheetId existingRows,
     Js.truthy GOOGLE_SHEETS_API_KEY = true ->
     extractSpreadsheetId sheet = Some spreadsheetId ->
     rowsOf (net (requests w) (read spreadsheetId)) = Return existingRows ->
     requests (snd (appendAppointmentToUserSheet sheet appointment w))
     = requests w ++
       [ read spreadsheetId;
         write spreadsheetId (Z.of_nat (length existingRows) + 1)%Z ]).
Proof.
  intros appointment written read write. subst read write written.
  cbv beta. rewrite <- (appointmentRow_parse startRow index row).
  fold appointment. split.
  - destruct (append_grown sheet appointment w) as (new & (_ & _ & G) & T).
    exists new. split; [assumption|].
    eapply Forall_impl; [exact T|]. intros r Hr.
    now apply (appendTraffic_write sheet).
  - intros id existing K E R.
    exact (append_requests sheet id appointment w existing K E R).
Qed.

(** ** Rows the scan drops *)

(** Every value a run writes to the storage is the index of an
    appointment the scan returned. *)
Lemma run_items (w : World) :
  exists items,
    setItems (snd (syncAppointments w)) = setItems w ++ items /\
    forall s, In s items ->
      exists apts apt,
        fst (fetchNewAppointments w) = Return apts /\
        In apt apts /\ s = rowWritten apt.
Proof.
  assert (R : forall w', setItems w' = setItems w ->
            exists items,
              setItems w' = setItems w ++ items /\
              forall s, In s items ->
                exists apts apt,
                  fst (fetchNewAppointments w) = Return apts /\
                  In apt apts /\ s = rowWritten apt).
  { intros w' E. exists []. rewrite app_nil_r. split; [assumption|].
    intros s []. }
  rewrite syncAppointments_eq.
  pose proof (fetchNewAppointments_storage w) as [_ S1].
  destruct (fetchNewAppointments w) as [[apts|e] w1] eqn:H1; cbn [fst snd] in *.
  2: { now apply R. }
  destruct apts as [|apt apts]; cbn [snd]; [now apply R|].
  pose proof (fetchUsersMap_storage w1) as [_ S2].
  destruct (fetchUsersMap w1) as [[usersMap|e] w2]; cbn [snd] in *.
  2: { apply R. congruence. }
  destruct (syncLoop_returns usersMap (apt :: apts) noStats w2) as (st & w3 & L).
  rewrite L. cbn [snd]. apply syncLoop_storage in L as [L _].
  exists (map rowWritten (List.filter (matched usersMap) (apt :: apts))).
  split; [now rewrite L, S2, S1|].
  intros s I. apply in_map_iff in I as (a & <- & I).
  apply filter_In in I as [I _]. exists (apt :: apts), a. auto.
Qed.

(** ** Row numbers within the safe integers *)

(** The indices of the rows kept out of [rows], numbered from [s], stay
    below [s] plus the number of rows. *)
Lemma kept_indices_upper (keep : Appointment -> bool)
    (rows : list (list string)) (s : Z) (ks : list Z) :
  map rowIndex (List.filter keep (imap (parseAppointment (Js.Int s)) rows))
  = map Js.Int ks ->
  Forall (fun k => (k < s + Z.of_nat (length rows))%Z) ks.
Proof.
  intros H. apply Forall_forall. intros k I. apply list_elem_of_In in I.
  apply (in_map Js.Int) in I. rewrite <- H in I.
  apply in_map_iff in I as (apt & E & I).
  apply filter_In in I as [I _]. apply list_elem_of_In in I.
  apply elem_of_lookup_imap in I as (i & row & -> & L).
  cbn in E. injection E as <-. apply lookup_lt_Some in L. lia.
Qed.

(** The indices of the appointments a scan returns, when the stored
    value and the rows answered stay within the safe integers. *)
Lemma scan_bounded (w : World) (before : Z) (apts : list Appointment) :
  watermark w = Js.Int before ->
  Js.safeInteger before ->
  (forall spreadsheetId rows,
     extractSpreadsheetId MAIN_APPOINTMENTS_SHEET_ID = Some spreadsheetId ->
     rowsOf (net (requests w) (masterRequest spreadsheetId w)) = Return rows ->
     Js.safeInteger (before + Z.of_nat (length rows))) ->
  fst (fetchNewAppointments w) = Return apts ->
  exists ks : list Z,
    map rowIndex apts = map Js.Int ks /\
    StronglySorted Z.lt ks /\
    Forall (fun k => (before < k)%Z /\ Js.safeInteger k) ks.
Proof.
  intros W Sb B F. destruct apts as [|apt apts].
  { exists []. repeat split; constructor. }
  destruct (fetchNewAppointments w) as [c w1] eqn:H. cbn [fst] in F. subst c.
  destruct (fetchNewAppointments_some _ _ _ H ltac:(discriminate))
    as (_ & id & rows & E & _ & R & P).
  specialize (B id rows E R). rewrite P, W. cbn [Js.add].
  destruct (kept_indices nonEmpty rows (before + 1)) as (ks & Q & S & L).
  pose proof (kept_indices_upper _ _ _ _ Q) as U.
  exists ks. repeat split; try assumption.
  apply Forall_forall. intros k I. rewrite Forall_forall in L, U.
  specialize (L k I). specialize (U k I). cbv beta in L, U.
  unfold Js.safeInteger in *. lia.
Qed.

(** The writes of a whole run under the same bounds: the values written
    are safe integers too. *)
Lemma run_writes_bounded (w : World) (before : Z) :
  watermark w = Js.Int before ->
  Js.safeInteger before ->
  (forall spreadsheetId rows,
     extractSpreadsheetId MAIN_APPOINTMENTS_SHEET_ID = Some spreadsheetId ->
     rowsOf (net (requests w) (masterRequest spreadsheetId w)) = Return rows ->
     Js.safeInteger (before + Z.of_nat (length rows))) ->
  exists ks : list Z,
    setItems (snd (syncAppointments w)) = setItems w ++ map written ks /\
    localStorage (snd (syncAppointments w))
    = storageAfter ks (localStorage w) /\
    StronglySorted Z.lt ks /\
    Forall (fun k => (before < k)%Z /\ Js.safeInteger k) ks.
Proof.
  intros W Sb B. destruct (run_writes w before W) as (ks & H1 & H2 & H3 & H4).
  exists ks. repeat split; try assumption.
  destruct (run_items w) as (items & Q & T).
  rewrite H1 in Q. apply app_inv_head in Q. subst items.
  apply Forall_forall. intros k I. rewrite Forall_forall in H4.
  split; [now apply H4|]. apply list_elem_of_In in I.
  destruct (T (written k) (in_map written _ _ I)) as (apts & apt & F & J & E).
  destruct (scan_bounded w before apts W Sb B F) as (ks' & M & _ & L).
  apply (in_map rowIndex) in J. rewrite M in J.
  apply in_map_iff in J as (k' & E' & J).
  unfold rowWritten, written in E. rewrite <- E' in E.
  apply toString_Int_inj in E. subst k'.
  rewrite Forall_forall in L. apply L. now apply list_elem_of_In.
Qed.

(** C3. The watermark never decreases: in a run that starts from a stored
    watermark [before], with the stored value and the number of the last
    row the master sheet answers both safe integers (below 2^53 in
    absolute value), the values written to the storage are the decimal
    forms of safe integers that are all greater than [before] and
    strictly increasing in the order they are written, and the watermark
    stored when the run ends is at least [before]. *)
Theorem watermark_never_decreases (w : World) (before : Z) :
  watermark w = Js.Int before ->
  Js.safeInteger before ->
  (forall spreadsheetId rows,
     extractSpreadsheetId MAIN_APPOINTMENTS_SHEET_ID = Some spreadsheetId ->
     rowsOf (net (requests w) (masterRequest spreadsheetId w)) = Return rows ->
     Js.safeInteger (before + Z.of_nat (length rows))) ->
  exists ks : list Z,
    setItems (snd (syncAppointments w)) = setItems w ++ map written ks /\
    StronglySorted Z.lt ks /\
    Forall (fun k => (before < k)%Z /\ Js.safeInteger k) ks /\
    exists after : Z,
      watermark (snd (syncAppointments w)) = Js.Int after /\
      (before <= after)%Z /\ Js.safeInteger after.
Proof.
  intros W Sb B.
  destruct (run_writes_bounded w before W Sb B) as (ks & H1 & H2 & H3 & H4).
  exists ks. repeat split; try assumption.
  unfold storageAfter in H2. destruct (last ks) as [k|] eqn:L.
  - exists k. split; [now apply watermark_of_storage|].
    apply last_Some_elem_of in L.
    rewrite Forall_forall in H4. destruct (H4 k L). split; [lia|assumption].
  - exists before. split; [now rewrite (watermark_storage _ _ H2)|].
    split; [lia|assumption].
Qed.

Lemma kept_not_dropped (before : Z) (rows : list (list string))
    (index : nat) (row : list string) (apt : Appointment) :
  rows !! index = Some row ->
  nonEmpty (parseAppointment (Js.Int (before + 1)) index row) = false ->
  In apt (parseAppointments (Js.Int (before + 1)) rows) ->
  rowIndex apt <> Js.Int (before + 1 + Z.of_nat index).
Proof.
  intros L D I E.
  apply parseAppointments_In in I as (j & row' & L' & -> & N).
  cbn in E. injection E as E. assert (j = index) as -> by lia.
  rewrite L in L'. injection L' as <-. congruence.
Qed.

(** The filter of the scan, on the cells of the row. *)
Lemma nonEmpty_cells (startRow : Js.number) (index : nat)
    (row : list string) :
  nonEmpty (parseAppointment startRow index row) = false <->
  cell row 0 = "" \/ Js.trim (Js.toLowerCase (cell row 1)) = "".
Proof.
  unfold nonEmpty, parseAppointment. cbn [email patientName].
  rewrite !or_else_cell.
  destruct (Js.trim (Js.toLowerCase (cell row 1))), (cell row 0); cbn;
    split; intros H; try discriminate; auto;
    destruct H as [H|H]; discriminate.
Qed.

Lemma truthy_nonempty (s : string) : Js.truthy s = true -> s <> "".
Proof. now destruct s. Qed.

(** C9, amended. Master rows whose patient-name cell is empty or whose
    email cell is empty once lower-cased and trimmed are dropped by the
    scan: the appointments it returns are exactly the other rows, and
    only these are counted; no appointment carries the index of a
    dropped row; every write to a user sheet carries the fields of an
    appointment that was kept, with a name and an email; and no value
    written to the storage is the index of a dropped row.  (The
    watermark does move past a dropped row when a later row is handled
    and written: the written values are indices of kept rows.)  When
    every row after the watermark is dropped, the run returns all-zero
    counts, leaves the storage as it was, and the scan of the next run
    sends the same read again.  The stored value and the number of the
    last row answered are safe integers (below 2^53 in absolute
    value). *)
Theorem dropped_rows_are_skipped
    (w : World) (before : Z) (spreadsheetId : string)
    (rows : list (list string)) :
  Js.truthy GOOGLE_SHEETS_API_KEY = true ->
  extractSpreadsheetId MAIN_APPOINTMENTS_SHEET_ID = Some spreadsheetId ->
  watermark w = Js.Int before ->
  Js.safeInteger before ->
  rowsOf (net (requests w) (masterRequest spreadsheetId w)) = Return rows ->
  Js.safeInteger (before + Z.of_nat (length rows)) ->
  let startRow := Js.Int (before + 1) in
  let kept := parseAppointments startRow rows in
  let droppedRow (row : list string) :=
    cell row 0 = "" \/ Js.trim (Js.toLowerCase (cell row 1)) = "" in
  let dropped (index : nat) :=
    exists row, rows !! index = Some row /\ droppedRow row in
  fst (fetchNewAppointments w) = Return kept /\
  (forall apt,
     In apt kept <->
     exists index row,
       rows !! index = Some row /\ ~ droppedRow row /\
       apt = parseAppointment startRow index row) /\
  (forall stats w',
     syncAppointments w = (Return stats, w') ->
     processed stats = length kept /\
     processed stats = (synced stats + errors stats)%nat) /\
  (forall index, dropped index ->
     forall apt, In apt kept ->
       rowIndex apt <> Js.Int (before + 1 + Z.of_nat index)) /\
  (exists new,
     requests (snd (syncAppointments w)) = requests w ++ new /\
     Forall (fun r =>
               Http.method r = Http.PUT ->
               exists apt,
                 In apt kept /\ patientName apt <> "" /\ email apt <> "" /\
                 Http.body r
                 = Some [[ patientName apt; email apt; phoneNumber apt;
                           reportUrl apt; date apt; startTime apt;
                           status apt ]]) new) /\
  (exists ks : list Z,
     setItems (snd (syncAppointments w)) = setItems w ++ map written ks /\
     Forall Js.safeInteger ks /\
     forall index, dropped index ->
       ~ In (before + 1 + Z.of_nat index)%Z ks) /\
  ((forall row, In row rows -> droppedRow row) ->
     syncAppointments w
     = (Return {| processed := 0; synced := 0; errors := 0 |},
        sent (masterRequest spreadsheetId w) w) /\
     localStorage (snd (syncAppointments w)) = localStorage w /\
     snd (fetchNewAppointments (snd (syncAppointments w)))
     = sent (masterRequest spreadsheetId w) (snd (syncAppointments w))).
Proof.
  intros K E W Sb R Sr startRow kept droppedRow dropped.
  assert (F : fetchNewAppointments w
              = (Return kept, sent (masterRequest spreadsheetId w) w)).
  { rewrite (fetchNewAppointments_read _ _ K E), R. cbn [mapCompletion].
    now rewrite W. }
  assert (D : forall index row,
            droppedRow row <->
            nonEmpty (parseAppointment startRow index row) = false).
  { intros index row. symmetry. apply nonEmpty_cells. }
  assert (B : forall id rows',
            extractSpreadsheetId MAIN_APPOINTMENTS_SHEET_ID = Some id ->
            rowsOf (net (requests w) (masterRequest id w)) = Return rows' ->
            Js.safeInteger (before + Z.of_nat (length rows'))).
  { intros id rows' E' R'. rewrite E in E'. injection E' as <-.
    rewrite R in R'. now injection R' as <-. }
  split; [now rewrite F|].
  split; [|split; [|split; [|split; [|split]]]].
  - intros apt. subst kept. rewrite parseAppointments_In. split.
    + intros (index & row & L & -> & N). exists index, row.
      repeat split; [assumption|]. rewrite (D index row). now rewrite N.
    + intros (index & row & L & N & ->). exists index, row.
      repeat split; [assumption|]. rewrite (D index row) in N.
      now destruct (nonEmpty _).
  - intros stats w' H.
    destruct (run_counts _ _ _ H) as (apts & w1 & F' & P & Q).
    rewrite F in F'. injection F' as <- _. now split.
  - intros index (row & L & Dr) apt I. apply (D index) in Dr.
    now apply (kept_not_dropped before rows index row).
  - destruct (run_requests w) as (new & Q & T). exists new.
    split; [assumption|]. eapply Forall_impl; [exact T|].
    intros r Hr P. destruct (Hr P) as (apts & apt & F' & I & Bd).
    rewrite F in F'. injection F' as <-. exists apt.
    split; [assumption|].
    apply parseAppointments_In in I as (? & ? & _ & _ & N).
    unfold nonEmpty in N. apply andb_true_iff in N as [N1 N2].
    repeat split; [now apply truthy_nonempty..|exact Bd].
  - destruct (run_writes_bounded w before W Sb B) as (ks & Q & _ & _ & Sk).
    exists ks. split; [assumption|]. split.
    { eapply Forall_impl; [exact Sk|]. now intros k [_ H]. }
    intros index (row & L & Dr) I. apply (D index) in Dr.
    destruct (run_items w) as (items & Q' & T).
    rewrite Q in Q'. apply app_inv_head in Q'. subst items.
    destruct (T _ (in_map written _ _ I)) as (apts & apt & F' & I' & Eq).
    rewrite F in F'. injection F' as <-.
    pose proof (kept_not_dropped before rows index row apt L Dr I') as Ne.
    apply parseAppointments_In in I' as (j & row' & _ & -> & _).
    unfold rowWritten, written in Eq. cbn [rowIndex parseAppointment Js.add] in *.
    apply toString_Int_inj in Eq. apply Ne.
    subst startRow. cbn [Js.add]. f_equal. lia.
  - intros A.
    assert (Z : kept = []).
    { destruct kept as [|apt l] eqn:Q; [reflexivity|]. exfalso.
      assert (I : In apt (parseAppointments startRow rows))
        by (fold kept; rewrite Q; now left).
      apply parseAppointments_In in I as (index & row & L & -> & N).
      assert (Dr : droppedRow row).
      { apply A. apply list_elem_of_In. eapply list_elem_of_lookup_2. exact L. }
      apply (D index) in Dr. congruence. }
    rewrite Z in F.
    assert (S : syncAppointments w
                = (Return noStats, sent (masterRequest spreadsheetId w) w)).
    { rewrite syncAppointments_eq. now rewrite F. }
    rewrite S. cbn [snd]. repeat split.
    now rewrite (fetchNewAppointments_read _ _ K E).
Qed.

(** ** A row whose append throws *)

(** The iteration for a row whose append throws counts the row in
    errors and still stores the row's index. *)
Lemma failed_append_advances usersMap stats apt sheet w e :
  lookupUser usersMap (email apt) = Some sheet ->
  fst (appendAppointmentToUserSheet sheet apt w) = Throw e ->
  syncAppointment usersMap stats apt w
  = (Return (countError (countProcessed stats)),
     stored (rowIndex apt) (snd (appendAppointmentToUserSheet sheet apt w))).
Proof.
  intros L T. rewrite (syncAppointment_matched _ _ _ _ _ L). now rewrite T.
Qed.

(** The iteration for a row the directory does not resolve ends at the
    [continue]: nothing is stored. *)
Lemma unresolved_row_stores_nothing usersMap stats apt w :
  lookupUser usersMap (email apt) = None ->
  snd (syncAppointment usersMap stats apt w) = w.
Proof.
  intros L. now rewrite (syncAppointment_unmatched _ _ _ _ L).
Qed.

(** * Further properties of the service *)

(** ** Sheet ids *)

Lemma isIdChar_not_slash (c : ascii) :
  isIdChar c = true -> Ascii.eqb "/" c = false.
Proof.
  intros H. destruct (Ascii.eqb_spec "/"%char c) as [<-|]; [|reflexivity].
  discriminate H.
Qed.

Lemma takeWhile_idChars (s : string) :
  idChars (Js.takeWhile isIdChar s) = true.
Proof.
  induction s as [|c s IH]; [reflexivity|]. cbn [Js.takeWhile].
  destruct (isIdChar c) eqn:E; [|reflexivity]. cbn [idChars]. now rewrite E.
Qed.

Lemma idChars_no_slash (s : string) :
  idChars s = true -> Js.includes s "/" = false.
Proof.
  induction s as [|c s IH]; [reflexivity|]. cbn [idChars Js.includes].
  intros [C H]%andb_true_iff. now rewrite (isIdChar_not_slash c C), IH.
Qed.

Lemma matchHere_Some (s run : string) :
  matchHere s = Some run -> Js.truthy run = true /\ idChars run = true.
Proof.
  unfold matchHere. destruct (stripPrefix _ s) as [rest|]; [|discriminate].
  destruct (Js.truthy (Js.takeWhile isIdChar rest)) eqn:T; [|discriminate].
  intros [= <-]. split; [assumption|apply takeWhile_idChars].
Qed.

Lemma matchSpreadsheetPath_Some (s run : string) :
  matchSpreadsheetPath s = Some run ->
  Js.truthy run = true /\ idChars run = true.
Proof.
  induction s as [|c s IH]; cbn [matchSpreadsheetPath].
  - destruct (matchHere "") eqn:M; [|discriminate].
    intros [= <-]. now apply matchHere_Some in M.
  - destruct (matchHere (String c s)) eqn:M.
    + intros [= <-]. now apply matchHere_Some in M.
    + exact IH.
Qed.

(** X1. A sheet id that [extractSpreadsheetId] returns is never empty and
    never contains a slash, so that it is one segment of the request
    path; it is the input itself when the input has no slash, and is
    made of letters, digits, hyphens and underscores only when it was
    taken out of a URL. *)
Theorem extracted_id_is_a_path_segment (url id : string) :
  extractSpreadsheetId url = Some id ->
  Js.truthy id = true /\
  Js.includes id "/" = false /\
  (Js.includes url "/" = false -> id = url) /\
  (Js.includes url "/" = true -> idChars id = true).
Proof.
  unfold extractSpreadsheetId.
  destruct (Js.truthy url) eqn:T; cbn [negb]; [|discriminate].
  destruct (Js.includes url "/") eqn:I; cbn [negb].
  - intros [T' C]%matchSpreadsheetPath_Some.
    split; [assumption|]. split; [now apply idChars_no_slash|].
    split; [discriminate|now intros _].
  - intros [= <-]. split; [assumption|]. split; [assumption|].
    split; [reflexivity|discriminate].
Qed.

Lemma extractSpreadsheetId_plain (id : string) :
  Js.truthy id = true -> Js.includes id "/" = false ->
  extractSpreadsheetId id = Some id.
Proof. intros T I. unfold extractSpreadsheetId. now rewrite T, I. Qed.

(** X2. Extraction is idempotent: an id that was extracted, from a URL or
    from a plain id, is returned unchanged when it is extracted again. *)
Theorem extractSpreadsheetId_idempotent (url id : string) :
  extractSpreadsheetId url = Some id ->
  extractSpreadsheetId id = Some id.
Proof.
  intros H. unfold extractSpreadsheetId in H.
  destruct (Js.truthy url) eqn:T; cbn [negb] in H; [|discriminate].
  destruct (Js.includes url "/") eqn:I; cbn [negb] in H.
  - apply matchSpreadsheetPath_Some in H as [T' C].
    apply extractSpreadsheetId_plain; [assumption|now apply idChars_no_slash].
  - injection H as <-. now apply extractSpreadsheetId_plain.
Qed.

Lemma matchSpreadsheetPath_skip (c : ascii) (s : string) :
  matchHere (String c s) = None ->
  matchSpreadsheetPath (String c s) = matchSpreadsheetPath s.
Proof. intros H. cbn [matchSpreadsheetPath]. now rewrite H. Qed.

Lemma matchSpreadsheetPath_here (s run : string) :
  matchHere s = Some run -> matchSpreadsheetPath s = Some run.
Proof. intros H. destruct s; cbn [matchSpreadsheetPath]; now rewrite H. Qed.

Lemma takeWhile_id_then (id rest : string) :
  idChars id = true ->
  Js.takeWhile isIdChar rest = "" ->
  Js.takeWhile isIdChar (id ++ rest)%string = id.
Proof.
  intros C R. induction id as [|c id IH]; [exact R|].
  cbn [idChars] in C. apply andb_true_iff in C as [C1 C2].
  change (String c id ++ rest)%string with (String c (id ++ rest)%string).
  cbn [Js.takeWhile]. now rewrite C1, IH.
Qed.

(** X3. The documented URL formats give the id back: from
    [https://docs.google.com/spreadsheets/d/] followed by a non-empty id
    made of letters, digits, hyphens and underscores, and then by nothing
    or by anything that starts with another character ([/edit],
    [/edit#gid=0]), the id is extracted exactly. *)
Theorem extractSpreadsheetId_of_url (id rest : string) :
  Js.truthy id = true ->
  idChars id = true ->
  Js.takeWhile isIdChar rest = "" ->
  extractSpreadsheetId
    ("https://docs.google.com/spreadsheets/d/" ++ id ++ rest)%string
  = Some id.
Proof.
  intros T C R.
  pose proof (takeWhile_id_then id rest C R) as W.
  set (tail := (id ++ rest)%string) in *.
  change ("https://docs.google.com/spreadsheets/d/" ++ tail)%string
    with (String "h" (String "t" (String "t" (String "p" (String "s"
           (String ":" (String "/" ("/docs.google.com/spreadsheets/d/" ++ tail)%string))))))).
  unfold extractSpreadsheetId. cbn [Js.truthy negb].
  replace (Js.includes _ "/") with true by reflexivity. cbn [negb].
  do 6 (rewrite matchSpreadsheetPath_skip by reflexivity).
  change ("/docs.google.com/spreadsheets/d/" ++ tail)%string
    with (String "/" (String "d" (String "o" (String "c" (String "s"
           (String "." (String "g" (String "o" (String "o" (String "g"
           (String "l" (String "e" (String "." (String "c" (String "o"
           (String "m" ("/spreadsheets/d/" ++ tail)%string)))))))))))))))).
  do 17 (rewrite matchSpreadsheetPath_skip by reflexivity).
  apply matchSpreadsheetPath_here.
  change (matchHere ("/spreadsheets/d/" ++ tail)%string)
    with (if Js.truthy (Js.takeWhile isIdChar tail)
          then Some (Js.takeWhile isIdChar tail) else None).
  now rewrite W, T.
Qed.

(** ** The stored row number *)




(** ** The result of the scan *)

(** X6. The appointments the scan returns are in sheet order: with the
    stored value and the number of the last row answered both safe
    integers (below 2^53 in absolute value), their row indices are safe
    integers, strictly increasing and all beyond the watermark read; and
    each has a non-empty email and a non-empty patient name. *)
Theorem scan_result_is_ordered
    (w : World) (before : Z) (apts : list Appointment) :
  watermark w = Js.Int before ->
  Js.safeInteger before ->
  (forall spreadsheetId rows,
     extractSpreadsheetId MAIN_APPOINTMENTS_SHEET_ID = Some spreadsheetId ->
     rowsOf (net (requests w) (masterRequest spreadsheetId w)) = Return rows ->
     Js.safeInteger (before + Z.of_nat (length rows))) ->
  fst (fetchNewAppointments w) = Return apts ->
  (exists ks : list Z,
     map rowIndex apts = map Js.Int ks /\
     StronglySorted Z.lt ks /\
     Forall (fun k => (before < k)%Z /\ Js.safeInteger k) ks) /\
  Forall (fun apt => Js.truthy (email apt) = true /\
                     Js.truthy (patientName apt) = true) apts.
Proof.
  intros W Sb B F. split; [now apply (scan_bounded w before apts)|].
  destruct (fetchNewAppointments_result w apts F) as [->|(rows & ->)];
    [constructor|].
  apply Forall_forall. intros apt I. apply list_elem_of_In in I.
  apply parseAppointments_In in I as (i & row & _ & _ & N).
  unfold nonEmpty in N. now apply andb_true_iff in N.
Qed.

(** ** The storage after a run *)


(** ** The user directory *)

Lemma setUser_entry (usersMap : gmap string string) (row : list string)
    (key sheet : string) :
  directoryRow key sheet row -> setUser usersMap row !! key = Some sheet.
Proof.
  intros (e & s & E & S & Te & Ts & <- & <-). unfold setUser.
  rewrite E, S, Te, Ts. cbn [andb]. apply lookup_insert_eq.
Qed.

Lemma setUser_silent (usersMap : gmap string string) (row : list string)
    (key : string) :
  silentOn key row -> setUser usersMap row !! key = usersMap !! key.
Proof.
  intros N. unfold setUser.
  destruct (row !! 0%nat) as [e|] eqn:E; [|reflexivity].
  destruct (row !! 2%nat) as [s|] eqn:S; [|reflexivity].
  destruct (Js.truthy e) eqn:Te, (Js.truthy s) eqn:Ts; cbn [andb];
    try reflexivity.
  destruct (decide (Js.trim (Js.toLowerCase e) = key)) as [Eq|Ne].
  - destruct (N (Js.trim s)). exists e, s. now repeat split.
  - now apply lookup_insert_ne.
Qed.

Lemma directory_silent (rows : list (list string)) (key : string) :
  forall start : gmap string string,
    Forall (silentOn key) rows ->
    fold_left setUser rows start !! key = start !! key.
Proof.
  induction rows as [|row rows IH]; intros start F; [reflexivity|].
  apply Forall_cons in F as [N F]. cbn [fold_left].
  now rewrite (IH _ F), (setUser_silent _ _ _ N).
Qed.

Lemma setUser_keeps (usersMap : gmap string string) (row : list string)
    (key : string) :
  is_Some (usersMap !! key) -> is_Some (setUser usersMap row !! key).
Proof.
  intros H. unfold setUser.
  destruct (row !! 0%nat) as [e|]; [|assumption].
  destruct (row !! 2%nat) as [s|]; [|assumption].
  destruct (Js.truthy e && Js.truthy s); [|assumption].
  destruct (decide (Js.trim (Js.toLowerCase e) = key)) as [<-|Ne].
  - rewrite lookup_insert_eq. eauto.
  - now rewrite lookup_insert_ne.
Qed.

Lemma directory_keeps (rows : list (list string)) (key : string) :
  forall start : gmap string string,
    is_Some (start !! key) -> is_Some (fold_left setUser rows start !! key).
Proof.
  induction rows as [|row rows IH]; intros start H; [assumption|].
  cbn [fold_left]. apply IH. now apply setUser_keeps.
Qed.

(** X8. In the directory the last row wins: when the users sheet is read
    and a row provides an entry for a key (its email cell lower-cased and
    trimmed) and no row after it does, the directory maps the key to the
    trimmed sheet-id cell of that row, whatever the rows before it say. *)
Theorem directory_last_row_wins
    (w : World) (spreadsheetId : string)
    (pre post : list (list string)) (row : list string)
    (key sheet : string) :
  Js.truthy GOOGLE_SHEETS_API_KEY = true ->
  extractSpreadsheetId USERS_SHEET_ID = Some spreadsheetId ->
  rowsOf (net (requests w) (usersRequest spreadsheetId))
  = Return (pre ++ row :: post) ->
  directoryRow key sheet row ->
  Forall (silentOn key) post ->
  exists usersMap,
    fst (fetchUsersMap w) = Return usersMap /\
    usersMap !! key = Some sheet /\
    lookupUser usersMap key
    = if Js.truthy sheet then Some sheet else None.
Proof.
  intros K E R D F.
  rewrite (fetchUsersMap_read _ _ K E), R. cbn [fst mapCompletion].
  eexists. split; [reflexivity|].
  assert (L : fold_left setUser (pre ++ row :: post) ∅ !! key = Some sheet).
  { rewrite fold_left_app. cbn [fold_left].
    rewrite (directory_silent _ _ _ F). now apply setUser_entry. }
  split; [exact L|]. unfold lookupUser. now rewrite L.
Qed.

(** X9. A key is in the directory exactly when some row of the users
    sheet provides it: the directory built from the rows read has no
    entry for a key if and only if no row has a non-empty email cell that
    normalizes to the key together with a non-empty sheet-id cell. *)
Theorem directory_entry_iff_row
    (w : World) (spreadsheetId : string) (rows : list (list string))
    (key : string) :
  Js.truthy GOOGLE_SHEETS_API_KEY = true ->
  extractSpreadsheetId USERS_SHEET_ID = Some spreadsheetId ->
  rowsOf (net (requests w) (usersRequest spreadsheetId)) = Return rows ->
  exists usersMap,
    fst (fetchUsersMap w) = Return usersMap /\
    (usersMap !! key = None <-> Forall (silentOn key) rows).
Proof.
  intros K E R.
  rewrite (fetchUsersMap_read _ _ K E), R. cbn [fst mapCompletion].
  eexists. split; [reflexivity|]. split.
  - intros N. apply Forall_forall. intros row I sheet D.
    apply list_elem_of_split in I as (pre & post & ->).
    rewrite fold_left_app in N. cbn [fold_left] in N.
    assert (S : is_Some (fold_left setUser post
                           (setUser (fold_left setUser pre ∅) row) !! key)).
    { apply directory_keeps. rewrite (setUser_entry _ _ _ _ D). eauto. }
    rewrite N in S. now destruct S.
  - intros F. rewrite (directory_silent _ _ _ F). apply lookup_empty.
Qed.

(** ** The append to a user's sheet *)

Lemma writeOutcome_unit (answer : Http.Response) (u : unit) :
  writeOutcome answer = Return u -> writeOutcome answer = Return tt.
Proof. now destruct u. Qed.

(** The outcome and the requests of an append, with the requests under
    the names of the functions that build them. *)
Lemma append_outcome_by_name
    (sheet : string) (apt : Appointment) (w : World) :
  (fst (appendAppointmentToUserSheet sheet apt w) = Return tt <->
   exists spreadsheetId existingRows,
     Js.truthy GOOGLE_SHEETS_API_KEY = true /\
     extractSpreadsheetId sheet = Some spreadsheetId /\
     rowsOf (net (requests w) (checkRequest spreadsheetId))
     = Return existingRows /\
     writeOutcome
       (net (requests w ++ [checkRequest spreadsheetId])
          (appendRequest spreadsheetId existingRows apt))
     = Return tt) /\
  exists new,
    requests (snd (appendAppointmentToUserSheet sheet apt w))
    = requests w ++ new /\
    (length new <= 2)%nat /\
    forall r, In r new -> isWrite r = true ->
      exists spreadsheetId existingRows,
        extractSpreadsheetId sheet = Some spreadsheetId /\
        rowsOf (net (requests w) (checkRequest spreadsheetId))
        = Return existingRows /\
        r = writeRequest spreadsheetId
              (appendRange (Js.Int (Z.of_nat (length existingRows) + 1)))
              [appointmentRow apt].
Proof.
  destruct (Js.truthy GOOGLE_SHEETS_API_KEY) eqn:K.
  - destruct (extractSpreadsheetId sheet) as [id|] eqn:E.
    + rewrite (append_read _ _ _ _ K E).
      destruct (rowsOf (net (requests w) (checkRequest id)))
        as [existing|e] eqn:R.
      * cbn [fst snd sent requests]. split.
        -- split.
           ++ intros H. exists id, existing. now repeat split.
           ++ intros (id' & existing' & _ & [= <-] & R' & H).
              rewrite R in R'. injection R' as <-. exact H.
        -- exists [checkRequest id; appendRequest id existing apt].
           split; [now rewrite <- app_assoc|]. split; [cbn; lia|].
           intros r [<-|[<-|[]]] W; [discriminate W|].
           exists id, existing. now repeat split.
      * cbn [fst snd sent requests]. split.
        -- split; [discriminate|].
           intros (id' & existing' & _ & [= <-] & R' & _).
           rewrite R in R'. discriminate.
        -- exists [checkRequest id]. split; [reflexivity|].
           split; [cbn; lia|]. intros r [<-|[]] W. discriminate W.
    + rewrite (append_bad_id _ _ _ K E). cbn [fst snd]. split.
      * split; [discriminate|]. intros (id' & ? & _ & [=] & _).
      * exists []. rewrite app_nil_r. split; [reflexivity|].
        split; [cbn; lia|]. intros r [].
  - rewrite (append_no_key _ _ _ K). cbn [fst snd]. split.
    + split; [discriminate|]. intros (? & ? & [=] & _).
    + exists []. rewrite app_nil_r. split; [reflexivity|].
      split; [cbn; lia|]. intros r [].
Qed.

(** X10. The append returns normally exactly when the key is set, the
    sheet id is well-formed, the GET of the range Sheet1!A:A of the sheet
    succeeds and the PUT of the appointment's seven fields, as the only
    row of the body, to the range Sheet1!A(n+1):G(n+1), n being the
    number of rows that read returned, is answered [ok]; it sends at
    most two requests, and a write only after that read has succeeded:
    every write it adds to the log is that PUT. *)
Theorem append_succeeds_iff
    (sheet : string) (apt : Appointment) (w : World) :
  let read (spreadsheetId : string) : Http.Request :=
    {| Http.method := Http.GET;
       Http.url := ("https://sheets.googleapis.com/v4/spreadsheets" ++ "/"
                    ++ spreadsheetId ++ "/values/" ++ "Sheet1!A:A"
                    ++ "?key=" ++ GOOGLE_SHEETS_API_KEY)%string;
       Http.body := None |} in
  let write (spreadsheetId : string) (n : Z) : Http.Request :=
    {| Http.method := Http.PUT;
       Http.url := ("https://sheets.googleapis.com/v4/spreadsheets" ++ "/"
                    ++ spreadsheetId ++ "/values/"
                    ++ ("Sheet1!A" ++ Js.toString (Js.Int n)
                        ++ ":G" ++ Js.toString (Js.Int n))
                    ++ "?valueInputOption=RAW&key="
                    ++ GOOGLE_SHEETS_API_KEY)%string;
       Http.body :=
         Some [[ patientName apt; email apt; phoneNumber apt; reportUrl apt;
                 date apt; startTime apt; status apt ]] |} in
  (fst (appendAppointmentToUserSheet sheet apt w) = Return tt <->
   exists spreadsheetId existingRows,
     Js.truthy GOOGLE_SHEETS_API_KEY = true /\
     extractSpreadsheetId sheet = Some spreadsheetId /\
     rowsOf (net (requests w) (read spreadsheetId)) = Return existingRows /\
     writeOutcome
       (net (requests w ++ [read spreadsheetId])
          (write spreadsheetId (Z.of_nat (length existingRows) + 1)%Z))
     = Return tt) /\
  exists new,
    requests (snd (appendAppointmentToUserSheet sheet apt w))
    = requests w ++ new /\
    (length new <= 2)%nat /\
    forall r, In r new -> Http.method r = Http.PUT ->
      exists spreadsheetId existingRows,
        extractSpreadsheetId sheet = Some spreadsheetId /\
        rowsOf (net (requests w) (read spreadsheetId))
        = Return existingRows /\
        r = write spreadsheetId (Z.of_nat (length existingRows) + 1)%Z.
Proof.
  intros read write.
  destruct (append_outcome_by_name sheet apt w) as [O (new & Q & L & T)].
  split; [exact O|]. exists new. split; [exact Q|]. split; [exact L|].
  intros r I P. apply (T r I). unfold isWrite. now rewrite P.
Qed.

(** ** Requests and counts of a run *)

Lemma append_traffic (sheet : string) (apt : Appointment) (w : World) :
  exists new,
    requests (snd (appendAppointmentToUserSheet sheet apt w))
    = requests w ++ new /\
    (length new <= 2)%nat /\
    (length (List.filter isWrite new) <= 1)%nat /\
    (fst (appendAppointmentToUserSheet sheet apt w) = Return tt ->
     length (List.filter isWrite new) = 1%nat).
Proof.
  destruct (Js.truthy GOOGLE_SHEETS_API_KEY) eqn:K.
  - destruct (extractSpreadsheetId sheet) as [id|] eqn:E.
    + rewrite (append_read _ _ _ _ K E).
      destruct (rowsOf (net (requests w) (checkRequest id))) as [existing|e].
      * exists [checkRequest id; appendRequest id existing apt].
        cbn [fst snd sent requests]. rewrite <- app_assoc.
        repeat split; cbn; lia.
      * exists [checkRequest id]. cbn [fst snd sent requests].
        repeat split; cbn; try lia. discriminate.
    + rewrite (append_bad_id _ _ _ K E). exists []. rewrite app_nil_r.
      cbn. repeat split; try lia. discriminate.
  - rewrite (append_no_key _ _ _ K). exists []. rewrite app_nil_r.
    cbn. repeat split; try lia. discriminate.
Qed.

Lemma filter_app_length {A} (p : A -> bool) (l1 l2 : list A) :
  length (List.filter p (l1 ++ l2))
  = (length (List.filter p l1) + length (List.filter p l2))%nat.
Proof. now rewrite List.filter_app, length_app. Qed.

Lemma syncLoop_traffic usersMap apts :
  forall stats w stats' w',
    syncLoop usersMap stats apts w = (Return stats', w') ->
    exists new,
      requests w' = requests w ++ new /\
      (length new <= 2 * length apts)%nat /\
      (synced stats' <= synced stats + length (List.filter isWrite new))%nat /\
      (length (List.filter isWrite new) <= length apts)%nat.
Proof.
  induction apts as [|apt rest IH]; intros stats w stats' w' H.
  - cbn in H. unfold ret in H. injection H as <- <-. exists [].
    rewrite app_nil_r. cbn. repeat split; lia.
  - destruct (syncAppointment_returns usersMap stats apt w) as (s1 & w1 & H1).
    rewrite (syncLoop_cons _ _ _ _ _ _ _ H1) in H.
    apply IH in H as (new2 & R2 & A2 & B2 & C2).
    assert (exists new1,
              requests w1 = requests w ++ new1 /\
              (length new1 <= 2)%nat /\
              (synced s1 <= synced stats + length (List.filter isWrite new1))%nat /\
              (length (List.filter isWrite new1) <= 1)%nat)
      as (new1 & R1 & A1 & B1 & C1).
    { destruct (lookupUser usersMap (email apt)) as [sheet|] eqn:L.
      - rewrite (syncAppointment_matched _ _ _ _ _ L) in H1.
        injection H1 as <- <-.
        destruct (append_traffic sheet apt w) as (new & R & A & C & S).
        exists new. repeat split; try assumption.
        destruct (fst (appendAppointmentToUserSheet sheet apt w)) as [[]|e];
          cbn; [rewrite (S eq_refl)|]; lia.
      - rewrite (syncAppointment_unmatched _ _ _ _ L) in H1.
        injection H1 as <- <-. exists []. rewrite app_nil_r.
        cbn. repeat split; lia. }
    exists (new1 ++ new2). rewrite filter_app_length, length_app.
    cbn [length]. repeat split; [now rewrite R2, R1, app_assoc|lia..].
Qed.

(** X11. The counts of a run that completes against its traffic: the run
    sends at most two requests for its two reads and two per appointment
    processed; every appointment counted as synced has its own write
    request in the log, so that [synced] is at most the number of writes
    sent, which is at most [processed]. *)
Theorem run_traffic_and_counts (w : World) (stats : Stats) (w' : World) :
  syncAppointments w = (Return stats, w') ->
  exists new,
    requests w' = requests w ++ new /\
    (length new <= 2 + 2 * processed stats)%nat /\
    (synced stats <= length (List.filter isWrite new))%nat /\
    (length (List.filter isWrite new) <= processed stats)%nat.
Proof.
  intros H. rewrite syncAppointments_eq in H.
  assert (G : forall a b : World, untouched a b ->
            (length (requests b) <= length (requests a) + 1)%nat ->
            exists new, requests b = requests a ++ new /\
                        (length new <= 1)%nat /\
                        List.filter isWrite new = []).
  { intros a b (_ & _ & new & E & F) L. exists new. split; [assumption|].
    rewrite E, length_app in L. split; [lia|].
    clear E L. induction F as [|r l Hr F IH]; [reflexivity|].
    cbn [List.filter]. unfold isWrite. unfold isRead in Hr. now rewrite Hr. }
  assert (N1 : (length (requests (snd (fetchNewAppointments w)))
                <= length (requests w) + 1)%nat).
  { destruct (fetchNewAppointments_grown w) as [(_ & _ & E)|(id & _ & _ & E)];
      rewrite E; [rewrite app_nil_r|cbn [sent requests]; rewrite length_app];
      cbn; lia. }
  pose proof (fetchNewAppointments_untouched w) as U1.
  destruct (fetchNewAppointments w) as [[apts|e] w1]; [|discriminate].
  cbn [snd] in *. destruct (G _ _ U1 N1) as (new1 & E1 & L1 & F1).
  destruct apts as [|apt apts].
  { injection H as <- <-. exists new1. rewrite F1. cbn.
    repeat split; [assumption|lia..]. }
  assert (N2 : (length (requests (snd (fetchUsersMap w1)))
                <= length (requests w1) + 1)%nat).
  { destruct (fetchUsersMap_grown w1) as [(_ & _ & E)|(id & _ & E)];
      rewrite E; [rewrite app_nil_r|cbn [sent requests]; rewrite length_app];
      cbn; lia. }
  pose proof (fetchUsersMap_untouched w1) as U2.
  destruct (fetchUsersMap w1) as [[usersMap|e] w2]; [|discriminate].
  cbn [snd] in *. destruct (G _ _ U2 N2) as (new2 & E2 & L2 & F2).
  pose proof (syncLoop_counts _ _ _ _ _ _ H) as [P _].
  apply syncLoop_traffic in H as (new3 & E3 & L3 & S3 & C3).
  cbn [noStats processed synced length] in P, S3, L3, C3.
  exists (new1 ++ new2 ++ new3).
  rewrite !filter_app_length, !length_app, F1, F2. cbn [length].
  split; [now rewrite E3, E2, E1, <- !app_assoc|].
  split; [lia|]. split; lia.
Qed.

(** ** Configuration errors *)

(** X12. What a run does under a configuration that cannot work.
    Without an API key the run is silent: it returns all-zero counts and
    leaves the world as it was, no request sent, nothing thrown.  With a
    key but an ill-formed master sheet id it throws
    [Invalid main appointments sheet ID format] before any request.  With
    an ill-formed users sheet id it throws [Invalid users sheet ID
    format] once the scan has returned something to process, after the
    read of the master sheet only and with nothing written. *)
Theorem configuration_errors (w : World) :
  (Js.truthy GOOGLE_SHEETS_API_KEY = false ->
   syncAppointments w
   = (Return {| processed := 0; synced := 0; errors := 0 |}, w)) /\
  (Js.truthy GOOGLE_SHEETS_API_KEY = true ->
   extractSpreadsheetId MAIN_APPOINTMENTS_SHEET_ID = None ->
   syncAppointments w
   = (Throw (Error "Invalid main appointments sheet ID format"), w)) /\
  (extractSpreadsheetId USERS_SHEET_ID = None ->
   forall apts w1,
     fetchNewAppointments w = (Return apts, w1) -> apts <> [] ->
     syncAppointments w = (Throw (Error "Invalid users sheet ID format"), w1) /\
     untouched w w1 /\
     exists spreadsheetId,
       requests w1 = requests w ++ [masterRequest spreadsheetId w]).
Proof.
  split; [|split].
  - intros K. rewrite syncAppointments_eq.
    now rewrite (fetchNewAppointments_no_key _ K).
  - intros K E. rewrite syncAppointments_eq.
    now rewrite (fetchNewAppointments_bad_id _ K E).
  - intros E apts w1 H Hne.
    destruct (fetchNewAppointments_some _ _ _ H Hne)
      as (K & id & rows & _ & W & _ & _).
    rewrite syncAppointments_eq, H.
    destruct apts as [|apt apts]; [now destruct Hne|].
    rewrite (fetchUsersMap_bad_id _ K E). split; [reflexivity|].
    split.
    + pose proof (fetchNewAppointments_untouched w) as U. now rewrite H in U.
    + exists id. now rewrite W.
Qed.

(** ** Normalized emails *)

Lemma string_app_cons (c : ascii) (a b : string) :
  (String c a ++ b)%string = String c (a ++ b)%string.
Proof. reflexivity. Qed.

Lemma string_app_nil_r (a : string) : (a ++ "")%string = a.
Proof.
  induction a as [|c a IH]; [reflexivity|]. now rewrite string_app_cons, IH.
Qed.

Lemma string_app_assoc (a b c : string) :
  ((a ++ b) ++ c)%string = (a ++ b ++ c)%string.
Proof.
  induction a as [|x a IH]; [reflexivity|].
  now rewrite !string_app_cons, IH.
Qed.

Lemma rev_app_spec (s acc : string) :
  String.rev_app s acc = (String.rev s ++ acc)%string.
Proof.
  revert acc. induction s as [|c s IH]; intros acc; [reflexivity|].
  unfold String.rev. cbn [String.rev_app].
  rewrite (IH (String c acc)), (IH (String c "")).
  now rewrite string_app_assoc.
Qed.

Lemma rev_cons (c : ascii) (s : string) :
  String.rev (String c s) = (String.rev s ++ String c "")%string.
Proof. unfold String.rev at 1. cbn [String.rev_app]. apply rev_app_spec. Qed.

Lemma rev_app_distr (a b : string) :
  String.rev (a ++ b)%string = (String.rev b ++ String.rev a)%string.
Proof.
  induction a as [|c a IH].
  - change (String.rev "") with "". now rewrite string_app_nil_r.
  - now rewrite string_app_cons, !rev_cons, IH, string_app_assoc.
Qed.

Lemma rev_involutive (s : string) : String.rev (String.rev s) = s.
Proof.
  induction s as [|c s IH]; [reflexivity|].
  now rewrite rev_cons, rev_app_distr, IH.
Qed.

Lemma trimStart_idem (s : string) :
  Js.trimStart (Js.trimStart s) = Js.trimStart s.
Proof.
  induction s as [|c s IH]; [reflexivity|]. cbn [Js.trimStart].
  destruct (Js.isWhiteSpace c) eqn:W; [assumption|].
  cbn [Js.trimStart]. now rewrite W.
Qed.

Lemma trimStart_suffix (s : string) :
  exists ws, s = (ws ++ Js.trimStart s)%string.
Proof.
  induction s as [|c s (ws & IH)]; [now exists ""|]. cbn [Js.trimStart].
  destruct (Js.isWhiteSpace c).
  - exists (String c ws). now rewrite string_app_cons, <- IH.
  - now exists "".
Qed.

Lemma trimStart_length (s : string) :
  (String.length (Js.trimStart s) <= String.length s)%nat.
Proof.
  induction s as [|c s IH]; [reflexivity|]. cbn [Js.trimStart].
  destruct (Js.isWhiteSpace c); cbn [String.length]; lia.
Qed.

Lemma trimEnd_prefix (s : string) :
  exists ws, s = (Js.trimEnd s ++ ws)%string.
Proof.
  destruct (trimStart_suffix (String.rev s)) as (ws & E).
  exists (String.rev ws). unfold Js.trimEnd.
  now rewrite <- rev_app_distr, <- E, rev_involutive.
Qed.

(** A string that starts with no white space has no prefix that does. *)
Lemma trimStart_prefix (u x : string) :
  Js.trimStart (u ++ x)%string = (u ++ x)%string -> Js.trimStart u = u.
Proof.
  destruct u as [|c u]; [reflexivity|]. rewrite string_app_cons.
  cbn [Js.trimStart]. destruct (Js.isWhiteSpace c); [|reflexivity].
  intros H. pose proof (trimStart_length (u ++ x)%string) as L.
  rewrite H in L. cbn [String.length] in L. lia.
Qed.

Lemma trim_idem (s : string) : Js.trim (Js.trim s) = Js.trim s.
Proof.
  unfold Js.trim. set (t := Js.trimStart s).
  assert (T : Js.trimStart t = t) by apply trimStart_idem.
  destruct (trimEnd_prefix t) as (ws & E).
  assert (U : Js.trimStart (Js.trimEnd t) = Js.trimEnd t).
  { apply (trimStart_prefix _ ws). now rewrite <- E. }
  rewrite U. unfold Js.trimEnd.
  now rewrite rev_involutive, trimStart_idem.
Qed.

Lemma lowerChar_idem (c : ascii) : Js.lowerChar (Js.lowerChar c) = Js.lowerChar c.
Proof. destruct c as [[] [] [] [] [] [] [] []]; reflexivity. Qed.

Lemma isWhiteSpace_lowerChar (c : ascii) :
  Js.isWhiteSpace (Js.lowerChar c) = Js.isWhiteSpace c.
Proof. destruct c as [[] [] [] [] [] [] [] []]; reflexivity. Qed.

Lemma toLowerCase_idem (s : string) :
  Js.toLowerCase (Js.toLowerCase s) = Js.toLowerCase s.
Proof.
  induction s as [|c s IH]; [reflexivity|]. cbn [Js.toLowerCase].
  now rewrite lowerChar_idem, IH.
Qed.

Lemma toLowerCase_app (a b : string) :
  Js.toLowerCase (a ++ b)%string
  = (Js.toLowerCase a ++ Js.toLowerCase b)%string.
Proof.
  induction a as [|c a IH]; [reflexivity|].
  rewrite string_app_cons. cbn [Js.toLowerCase].
  now rewrite string_app_cons, IH.
Qed.

Lemma toLowerCase_rev (s : string) :
  Js.toLowerCase (String.rev s) = String.rev (Js.toLowerCase s).
Proof.
  induction s as [|c s IH]; [reflexivity|]. cbn [Js.toLowerCase].
  now rewrite !rev_cons, toLowerCase_app, IH.
Qed.

Lemma toLowerCase_trimStart (s : string) :
  Js.toLowerCase (Js.trimStart s) = Js.trimStart (Js.toLowerCase s).
Proof.
  induction s as [|c s IH]; [reflexivity|].
  cbn [Js.toLowerCase Js.trimStart]. rewrite isWhiteSpace_lowerChar.
  destruct (Js.isWhiteSpace c); [assumption|reflexivity].
Qed.

Lemma toLowerCase_trim (s : string) :
  Js.toLowerCase (Js.trim s) = Js.trim (Js.toLowerCase s).
Proof.
  unfold Js.trim, Js.trimEnd.
  now rewrite toLowerCase_rev, toLowerCase_trimStart, toLowerCase_rev,
    toLowerCase_trimStart.
Qed.

Lemma normalize_idem (s : string) : normalize (normalize s) = normalize s.
Proof.
  unfold normalize.
  now rewrite toLowerCase_trim, trim_idem, toLowerCase_idem.
Qed.

(** X13. Emails are kept in the directory's key form: the email of an
    appointment parsed from a master row, which is also the email cell
    written to the user's sheet, is unchanged by lower-casing and
    trimming it again, and so is every key of the directory. *)
Theorem normalized_email_is_stable
    (startRow : Js.number) (index : nat) (row : list string)
    (userRows : list (list string)) (key sheet : string) :
  Js.trim (Js.toLowerCase (email (parseAppointment startRow index row)))
  = email (parseAppointment startRow index row) /\
  nth 1 (appointmentRow (parseAppointment startRow index row)) ""
  = email (parseAppointment startRow index row) /\
  (fold_left setUser userRows ∅ !! key = Some sheet ->
   Js.trim (Js.toLowerCase key) = key).
Proof.
  split; [|split].
  - cbn [email parseAppointment]. apply normalize_idem.
  - reflexivity.
  - intros L. apply directory_keys in L as [L|(r & e & s & _ & _ & _ & -> & _)].
    + now rewrite lookup_empty in L.
    + apply normalize_idem.
Qed.

(** X14. Matching ignores case and surrounding white space: when the
    last row of the users sheet that provides an entry for an email has
    email cell [e], a master row whose email cell lower-cases and trims
    to the same text as [e] resolves to the trimmed sheet-id cell of
    that row. *)
Theorem match_ignores_case_and_blanks
    (pre post : list (list string)) (userRow : list string)
    (e sheetCell : string)
    (startRow : Js.number) (index : nat) (row : list string) (cellB : string) :
  userRow !! 0%nat = Some e -> userRow !! 2%nat = Some sheetCell ->
  Js.truthy e = true -> Js.truthy sheetCell = true ->
  Js.truthy (Js.trim sheetCell) = true ->
  Forall (silentOn (Js.trim (Js.toLowerCase e))) post ->
  row !! 1%nat = Some cellB ->
  Js.trim (Js.toLowerCase cellB) = Js.trim (Js.toLowerCase e) ->
  lookupUser (fold_left setUser (pre ++ userRow :: post) ∅)
    (email (parseAppointment startRow index row))
  = Some (Js.trim sheetCell).
Proof.
  intros E S Te Ts Tt F B N.
  assert (M : email (parseAppointment startRow index row)
              = Js.trim (Js.toLowerCase e)).
  { cbn [email parseAppointment]. rewrite B. unfold Js.or_else.
    destruct (Js.truthy cellB) eqn:TB; [assumption|].
    destruct cellB; [|discriminate TB]. exact N. }
  rewrite M. unfold lookupUser.
  rewrite fold_left_app. cbn [fold_left].
  rewrite (directory_silent _ _ _ F).
  rewrite (setUser_entry _ userRow _ (Js.trim sheetCell)).
  - now rewrite Tt.
  - exists e, sheetCell. now repeat split.
Qed.

(** ** One run after another *)

Lemma sorted_last_max (ks : list Z) (m : Z) :
  StronglySorted Z.lt ks -> last ks = Some m ->
  Forall (fun k => (k <= m)%Z) ks.
Proof.
  induction 1 as [|k ks S IH F]; intros L; [constructor|].
  destruct ks as [|k' ks'].
  - cbn in L. injection L as <-. repeat constructor. lia.
  - rewrite last_cons_cons in L. specialize (IH L). constructor; [|assumption].
    apply Forall_cons in F as [F _]. apply Forall_cons in IH as [IH _]. lia.
Qed.

(** X15. A row whose index was stored is not scanned again: after a run
    that started from the watermark [before] and stored the indices
    [ks], every appointment that the scan of the next run returns, from
    the world this run left, has an index beyond [before] and beyond
    every index of [ks].  In both scans the stored value and the number
    of the last row answered are safe integers (below 2^53 in absolute
    value), and so are the indices stored and returned. *)
Theorem stored_rows_are_not_scanned_again (w : World) (before : Z) :
  watermark w = Js.Int before ->
  Js.safeInteger before ->
  (forall spreadsheetId rows,
     extractSpreadsheetId MAIN_APPOINTMENTS_SHEET_ID = Some spreadsheetId ->
     rowsOf (net (requests w) (masterRequest spreadsheetId w)) = Return rows ->
     Js.safeInteger (before + Z.of_nat (length rows))) ->
  (forall spreadsheetId rows' after,
     extractSpreadsheetId MAIN_APPOINTMENTS_SHEET_ID = Some spreadsheetId ->
     watermark (snd (syncAppointments w)) = Js.Int after ->
     rowsOf (net (requests (snd (syncAppointments w)))
               (masterRequest spreadsheetId (snd (syncAppointments w))))
     = Return rows' ->
     Js.safeInteger (after + Z.of_nat (length rows'))) ->
  exists ks : list Z,
    setItems (snd (syncAppointments w)) = setItems w ++ map written ks /\
    Forall Js.safeInteger ks /\
    forall apts',
      fst (fetchNewAppointments (snd (syncAppointments w))) = Return apts' ->
      Forall (fun apt' =>
                exists k' : Z,
                  rowIndex apt' = Js.Int k' /\ (before < k')%Z /\
                  Js.safeInteger k' /\
                  Forall (fun k => (k < k')%Z) ks) apts'.
Proof.
  intros W Sb B B'.
  destruct (run_writes_bounded w before W Sb B) as (ks & I & S & O & Bk).
  exists ks. split; [assumption|]. split.
  { eapply Forall_impl; [exact Bk|]. now intros k [_ H]. }
  intros apts' F.
  set (w' := snd (syncAppointments w)) in *.
  assert (exists after, watermark w' = Js.Int after /\ (before <= after)%Z /\
                        Js.safeInteger after /\
                        Forall (fun k => (k <= after)%Z) ks)
    as (after & W' & A & Sa & M).
  { unfold storageAfter in S. destruct (last ks) as [m|] eqn:L.
    - exists m. split; [now apply watermark_of_storage|].
      pose proof (sorted_last_max ks m O L) as M.
      apply last_Some_elem_of in L. rewrite Forall_forall in Bk.
      destruct (Bk m L). split; [lia|]. split; assumption.
    - exists before. split; [now rewrite (watermark_storage _ _ S)|].
      split; [lia|]. split; [assumption|].
      apply last_None in L. subst ks. constructor. }
  assert (B2 : forall id rows',
            extractSpreadsheetId MAIN_APPOINTMENTS_SHEET_ID = Some id ->
            rowsOf (net (requests w') (masterRequest id w')) = Return rows' ->
            Js.safeInteger (after + Z.of_nat (length rows'))).
  { intros id rows' E R. exact (B' id rows' after E W' R). }
  destruct (scan_bounded w' after apts' W' Sa B2 F) as (ks' & Q & _ & L).
  apply Forall_forall. intros apt I'. apply list_elem_of_In in I'.
  apply (in_map rowIndex) in I'. rewrite Q in I'.
  apply in_map_iff in I' as (k' & E' & I'). apply list_elem_of_In in I'.
  rewrite Forall_forall in L. destruct (L k' I') as [L1 L2].
  exists k'. split; [now symmetry|]. split; [lia|]. split; [assumption|].
  eapply Forall_impl; [exact M|]. cbn. intros; lia.
Qed.

(** ** Where a run writes *)


(** ** The scheduler *)





End Service.

(** * The claims on sample runs *)

Local Open Scope list_scope.

(** C2, on the code. A run that scans one row whose email is not in the
    directory counts it as processed and as an error but does not store
    its index: the storage is still empty after the run, and the next
    run reads the master sheet from the same row and counts the same row
    again. *)
Theorem unmatched_row_does_not_advance_watermark :
  fst (syncAppointments Sample.env Sample.netUnknown Sample.fresh)
  = Return {| processed := 1; synced := 0; errors := 1 |} /\
  localStorage (snd (syncAppointments Sample.env Sample.netUnknown Sample.fresh))
  = None /\
  setItems (snd (syncAppointments Sample.env Sample.netUnknown Sample.fresh))
  = [] /\
  fst (syncAppointments Sample.env Sample.netUnknown
         (snd (syncAppointments Sample.env Sample.netUnknown Sample.fresh)))
  = Return {| processed := 1; synced := 0; errors := 1 |} /\
  map Http.url
    (requests
       (snd (syncAppointments Sample.env Sample.netUnknown
               (snd (syncAppointments Sample.env Sample.netUnknown
                       Sample.fresh)))))
  = [ readUrl Sample.env "1CsN2iqFZAXStQA-xqBO_OIEFeAGIMO2rTy_g_W0rNXU"
        "Sheet1!A2:G";
      readUrl Sample.env "1xftkSFbQbdMl4XIevPPJdYB0vqW7JJtL6HHh9CxkTPI"
        "Sheet1!A2:C";
      readUrl Sample.env "1CsN2iqFZAXStQA-xqBO_OIEFeAGIMO2rTy_g_W0rNXU"
        "Sheet1!A2:G";
      readUrl Sample.env "1xftkSFbQbdMl4XIevPPJdYB0vqW7JJtL6HHh9CxkTPI"
        "Sheet1!A2:C" ].
Proof. vm_compute. repeat split. Qed.

(** By contrast a row whose append throws is stepped over. *)
Example failed_append_is_stepped_over :
  fst (syncAppointments Sample.env Sample.netNoUserSheet Sample.fresh)
  = Return {| processed := 1; synced := 0; errors := 1 |} /\
  watermark (snd (syncAppointments Sample.env Sample.netNoUserSheet Sample.fresh))
  = Js.Int 2.
Proof. vm_compute. now split. Qed.

(** C9 as stated fails: the watermark does get past a dropped row.  With
    a row without patient name at row 2 and a row for a known user at
    row 3, the run ends with the watermark at 3. *)
Lemma watermark_passes_a_dropped_row :
  ~ (forall (env : Env) (net : Http.Network) (w : World) (before after : Z)
            (spreadsheetId : string) (rows : list (list string))
            (index : nat) (row : list string),
       Js.truthy (GOOGLE_SHEETS_API_KEY env) = true ->
       extractSpreadsheetId (MAIN_APPOINTMENTS_SHEET_ID env)
       = Some spreadsheetId ->
       watermark w = Js.Int before ->
       rowsOf (net (requests w) (masterRequest env spreadsheetId w))
       = Return rows ->
       rows !! index = Some row ->
       nonEmpty (parseAppointment (Js.Int (before + 1)) index row) = false ->
       watermark (snd (syncAppointments env net w)) = Js.Int after ->
       (after < before + 1 + Z.of_nat index)%Z).
Proof.
  intros H.
  specialize (H Sample.env Sample.netGhostThenAnn Sample.fresh 1%Z 3%Z
                "1CsN2iqFZAXStQA-xqBO_OIEFeAGIMO2rTy_g_W0rNXU"
                [Sample.ghostRow; Sample.annRow] 0%nat Sample.ghostRow).
  assert (3 < 1 + 1 + Z.of_nat 0)%Z as A; [|cbn in A; lia].
  apply H; vm_compute; reflexivity.
Qed.

(** ** The theorems at work on the sample runs *)

(** From an empty storage the watermark reads 1; the run over the three
    sample rows writes beyond it. *)
Lemma watermark_never_decreases_witness :
  watermark Sample.fresh = Js.Int 1 /\
  Js.safeInteger 1 /\
  exists ks : list Z,
    setItems (snd (syncAppointments Sample.env Sample.netThree Sample.fresh))
    = setItems Sample.fresh ++ map written ks /\
    StronglySorted Z.lt ks /\
    Forall (fun k => (1 < k)%Z /\ Js.safeInteger k) ks /\
    exists after : Z,
      watermark (snd (syncAppointments Sample.env Sample.netThree Sample.fresh))
      = Js.Int after /\
      (1 <= after)%Z /\ Js.safeInteger after.
Proof.
  assert (S : Js.safeInteger 1) by (unfold Js.safeInteger; lia).
  split; [reflexivity|]. split; [exact S|].
  apply (watermark_never_decreases Sample.env Sample.netThree Sample.fresh 1).
  - reflexivity.
  - exact S.
  - intros spreadsheetId rows _ R. vm_compute in R. injection R as <-.
    unfold Js.safeInteger. simpl. lia.
Defined.

(** A master sheet with nothing new. *)
Lemma no_new_rows_is_noop_witness :
  fetchNewAppointments Sample.env Sample.netQuiet Sample.fresh
  = (Return [], snd (fetchNewAppointments Sample.env Sample.netQuiet Sample.fresh)) /\
  syncAppointments Sample.env Sample.netQuiet Sample.fresh
  = (Return {| processed := 0; synced := 0; errors := 0 |},
     snd (fetchNewAppointments Sample.env Sample.netQuiet Sample.fresh)) /\
  localStorage (snd (fetchNewAppointments Sample.env Sample.netQuiet Sample.fresh))
  = localStorage Sample.fresh.
Proof.
  assert (H : fetchNewAppointments Sample.env Sample.netQuiet Sample.fresh
              = (Return [],
                 snd (fetchNewAppointments Sample.env Sample.netQuiet
                        Sample.fresh)))
    by (vm_compute; reflexivity).
  split; [exact H|].
  destruct (no_new_rows_is_noop Sample.env Sample.netQuiet _ _ H)
    as (A & B & _).
  split; [exact A|exact B].
Defined.

(** The user directory refuses the read: the run throws and nothing was
    written. *)
Lemma fetch_failures_abort_the_run_witness :
  syncAppointments Sample.env Sample.netNoDirectory Sample.fresh
  = (Throw (Error "HTTP error! status: 503"),
     snd (syncAppointments Sample.env Sample.netNoDirectory Sample.fresh)) /\
  untouched Sample.fresh
    (snd (syncAppointments Sample.env Sample.netNoDirectory Sample.fresh)).
Proof.
  destruct (fetch_failures_abort_the_run Sample.env Sample.netNoDirectory
              Sample.fresh) as [H _].
  assert (E1 : fetchNewAppointments Sample.env Sample.netNoDirectory Sample.fresh
               = (Return [Sample.ann],
                  snd (fetchNewAppointments Sample.env Sample.netNoDirectory
                         Sample.fresh)))
    by (vm_compute; reflexivity).
  rewrite E1 in H. specialize (H ltac:(discriminate)).
  assert (E2 : fetchUsersMap Sample.env Sample.netNoDirectory
                 (snd (fetchNewAppointments Sample.env Sample.netNoDirectory
                         Sample.fresh))
               = (Throw (Error "HTTP error! status: 503"),
                  snd (syncAppointments Sample.env Sample.netNoDirectory
                         Sample.fresh)))
    by (vm_compute; reflexivity).
  rewrite E2 in H. exact H.
Defined.

(** Two rows handled, one synced and one in error. *)
Lemma counts_add_up_witness :
  syncAppointments Sample.env Sample.netThree Sample.fresh
  = (Return {| processed := 2; synced := 1; errors := 1 |},
     snd (syncAppointments Sample.env Sample.netThree Sample.fresh)) /\
  (2 = 1 + 1)%nat.
Proof.
  assert (H : syncAppointments Sample.env Sample.netThree Sample.fresh
              = (Return {| processed := 2; synced := 1; errors := 1 |},
                 snd (syncAppointments Sample.env Sample.netThree Sample.fresh)))
    by (vm_compute; reflexivity).
  split; [exact H|].
  destruct (counts_add_up Sample.env Sample.netThree _ _ _ H) as (_ & _ & C).
  exact C.
Defined.

(** The row of an unknown email, reached after the row of a known user. *)
Lemma unmatched_row_is_counted_not_written_witness :
  fetchNewAppointments Sample.env Sample.netThree Sample.fresh
  = (Return ([Sample.ann] ++ Sample.bob :: []),
     snd (fetchNewAppointments Sample.env Sample.netThree Sample.fresh)) /\
  Sample.users !! email Sample.bob = None /\
  exists stats wa,
    syncLoop Sample.env Sample.netThree Sample.users (noStats) [Sample.ann]
      (snd (fetchUsersMap Sample.env Sample.netThree
              (snd (fetchNewAppointments Sample.env Sample.netThree
                      Sample.fresh))))
    = (Return stats, wa) /\
    syncAppointment Sample.env Sample.netThree Sample.users stats Sample.bob wa
    = (Return {| processed := S (processed stats); synced := synced stats;
                 errors := S (errors stats) |}, wa).
Proof.
  assert (H1 : fetchNewAppointments Sample.env Sample.netThree Sample.fresh
               = (Return ([Sample.ann] ++ Sample.bob :: []),
                  snd (fetchNewAppointments Sample.env Sample.netThree
                         Sample.fresh)))
    by (vm_compute; reflexivity).
  assert (H2 : fetchUsersMap Sample.env Sample.netThree
                 (snd (fetchNewAppointments Sample.env Sample.netThree
                         Sample.fresh))
               = (Return Sample.users,
                  snd (fetchUsersMap Sample.env Sample.netThree
                         (snd (fetchNewAppointments Sample.env Sample.netThree
                                 Sample.fresh)))))
    by (vm_compute; reflexivity).
  assert (H3 : Sample.users !! email Sample.bob = None)
    by (vm_compute; reflexivity).
  split; [exact H1|]. split; [exact H3|].
  destruct (unmatched_row_is_counted_not_written Sample.env Sample.netThree
              _ _ _ _ _ _ _ H1 H2 H3) as (stats & wa & A & B & _).
  exists stats, wa. split; [exact A|exact B].
Defined.


(** A row without a patient name before the row of a known user. *)
Lemma dropped_rows_are_skipped_witness :
  Js.truthy (GOOGLE_SHEETS_API_KEY Sample.env) = true /\
  watermark Sample.fresh = Js.Int 1 /\
  Js.safeInteger 1 /\
  rowsOf (Sample.netGhostThenAnn (requests Sample.fresh)
            (masterRequest Sample.env
               "1CsN2iqFZAXStQA-xqBO_OIEFeAGIMO2rTy_g_W0rNXU" Sample.fresh))
  = Return [Sample.ghostRow; Sample.annRow] /\
  Js.safeInteger (1 + Z.of_nat (length [Sample.ghostRow; Sample.annRow])) /\
  cell Sample.ghostRow 0 = "" /\
  fst (fetchNewAppointments Sample.env Sample.netGhostThenAnn Sample.fresh)
  = Return (parseAppointments (Js.Int (1 + 1))
              [Sample.ghostRow; Sample.annRow]) /\
  (forall stats w',
     syncAppointments Sample.env Sample.netGhostThenAnn Sample.fresh
     = (Return stats, w') ->
     processed stats
     = length (parseAppointments (Js.Int (1 + 1))
                 [Sample.ghostRow; Sample.annRow]) /\
     processed stats = (synced stats + errors stats)%nat) /\
  forall apt,
    In apt (parseAppointments (Js.Int (1 + 1))
              [Sample.ghostRow; Sample.annRow]) ->
    rowIndex apt <> Js.Int (1 + 1 + Z.of_nat 0).
Proof.
  assert (K : Js.truthy (GOOGLE_SHEETS_API_KEY Sample.env) = true)
    by reflexivity.
  assert (E : extractSpreadsheetId (MAIN_APPOINTMENTS_SHEET_ID Sample.env)
              = Some "1CsN2iqFZAXStQA-xqBO_OIEFeAGIMO2rTy_g_W0rNXU")
    by (vm_compute; reflexivity).
  assert (W : watermark Sample.fresh = Js.Int 1) by reflexivity.
  assert (Sb : Js.safeInteger 1) by (unfold Js.safeInteger; lia).
  assert (R : rowsOf (Sample.netGhostThenAnn (requests Sample.fresh)
                        (masterRequest Sample.env
                           "1CsN2iqFZAXStQA-xqBO_OIEFeAGIMO2rTy_g_W0rNXU"
                           Sample.fresh))
              = Return [Sample.ghostRow; Sample.annRow])
    by (vm_compute; reflexivity).
  assert (Sr : Js.safeInteger
                 (1 + Z.of_nat (length [Sample.ghostRow; Sample.annRow])))
    by (unfold Js.safeInteger; simpl; lia).
  assert (G : cell Sample.ghostRow 0 = "") by reflexivity.
  split; [exact K|]. split; [exact W|]. split; [exact Sb|].
  split; [exact R|]. split; [exact Sr|]. split; [exact G|].
  destruct (dropped_rows_are_skipped Sample.env Sample.netGhostThenAnn
              _ _ _ _ K E W Sb R Sr) as (A & _ & B & C & _).
  split; [exact A|]. split; [exact B|].
  apply (C 0%nat). exists Sample.ghostRow. split; [reflexivity|]. now left.
Defined.

(** The row written for a master row whose email needs folding and whose
    status cell is missing. *)
Lemma appended_row_fields_witness :
  requests
    (snd (appendAppointmentToUserSheet Sample.env
            (Sample.scripted [Sample.answer [["Patient Name"]; ["Zoe"]];
                              Sample.answer []])
            "sheetA" (parseAppointment (Js.Int 2) 0 Sample.annRow)
            Sample.fresh))
  = requests Sample.fresh ++
    [ {| Http.method := Http.GET;
         Http.url := "https://sheets.googleapis.com/v4/spreadsheets/sheetA/values/Sheet1!A:A?key=k";
         Http.body := None |};
      {| Http.method := Http.PUT;
         Http.url := "https://sheets.googleapis.com/v4/spreadsheets/sheetA/values/Sheet1!A3:G3?valueInputOption=RAW&key=k";
         Http.body :=
           Some [[ "Ann"; "ann@x.com"; "555-0100"; "https://r/1";
                   "2024-05-02"; "09:30"; "scheduled" ]] |} ].
Proof.
  destruct (appended_row_fields Sample.env
              (Sample.scripted [Sample.answer [["Patient Name"]; ["Zoe"]];
                                Sample.answer []])
              "sheetA" (Js.Int 2) 0 Sample.annRow Sample.fresh) as [_ H].
  rewrite (H "sheetA" [["Patient Name"]; ["Zoe"]]);
    vm_compute; reflexivity.
Defined.

(** * The further properties on sample inputs *)

(** The id of a spreadsheet URL. *)
Lemma extracted_id_is_a_path_segment_witness :
  extractSpreadsheetId "https://docs.google.com/spreadsheets/d/ab-1_Z/edit"
  = Some "ab-1_Z" /\
  Js.truthy "ab-1_Z" = true /\ Js.includes "ab-1_Z" "/" = false.
Proof.
  assert (H : extractSpreadsheetId
                "https://docs.google.com/spreadsheets/d/ab-1_Z/edit"
              = Some "ab-1_Z") by reflexivity.
  split; [exact H|].
  destruct (extracted_id_is_a_path_segment _ _ H) as (A & B & _).
  split; [exact A|exact B].
Defined.

Lemma extractSpreadsheetId_idempotent_witness :
  extractSpreadsheetId "https://docs.google.com/spreadsheets/d/ab-1_Z/edit"
  = Some "ab-1_Z" /\
  extractSpreadsheetId "ab-1_Z" = Some "ab-1_Z".
Proof.
  assert (H : extractSpreadsheetId
                "https://docs.google.com/spreadsheets/d/ab-1_Z/edit"
              = Some "ab-1_Z") by reflexivity.
  split; [exact H|]. exact (extractSpreadsheetId_idempotent _ _ H).
Defined.

Lemma extractSpreadsheetId_of_url_witness :
  extractSpreadsheetId
    ("https://docs.google.com/spreadsheets/d/" ++ "1xftk-SFb_Q"
       ++ "/edit#gid=0")%string
  = Some "1xftk-SFb_Q".
Proof.
  apply extractSpreadsheetId_of_url; reflexivity.
Defined.


(** The scan of the three sample rows. *)
Lemma scan_result_is_ordered_witness :
  watermark Sample.fresh = Js.Int 1 /\
  Js.safeInteger 1 /\
  fst (fetchNewAppointments Sample.env Sample.netThree Sample.fresh)
  = Return [Sample.ann; Sample.bob] /\
  (exists ks : list Z,
     map rowIndex [Sample.ann; Sample.bob] = map Js.Int ks /\
     StronglySorted Z.lt ks /\
     Forall (fun k => (1 < k)%Z /\ Js.safeInteger k) ks) /\
  Forall (fun apt => Js.truthy (email apt) = true /\
                     Js.truthy (patientName apt) = true)
    [Sample.ann; Sample.bob].
Proof.
  assert (W : watermark Sample.fresh = Js.Int 1) by reflexivity.
  assert (S : Js.safeInteger 1) by (unfold Js.safeInteger; lia).
  assert (F : fst (fetchNewAppointments Sample.env Sample.netThree Sample.fresh)
              = Return [Sample.ann; Sample.bob]) by (vm_compute; reflexivity).
  split; [exact W|]. split; [exact S|]. split; [exact F|].
  apply (scan_result_is_ordered Sample.env Sample.netThree _ _ _ W S);
    [|exact F].
  intros spreadsheetId rows _ R. vm_compute in R. injection R as <-.
  unfold Js.safeInteger. simpl. lia.
Defined.


Lemma ben_is_silent_on_ann :
  silentOn "ann@x.com" Sample.benRow.
Proof.
  intros sheet (e & s & E & _ & _ & _ & N & _).
  injection E as <-. vm_compute in N. discriminate N.
Defined.

(** The later of two rows for the same user gives the sheet. *)
Lemma directory_last_row_wins_witness :
  directoryRow "ann@x.com" "sheetA" Sample.annNewRow /\
  exists usersMap,
    fst (fetchUsersMap Sample.env Sample.netDirectory Sample.fresh)
    = Return usersMap /\
    usersMap !! "ann@x.com" = Some "sheetA".
Proof.
  assert (D : directoryRow "ann@x.com" "sheetA" Sample.annNewRow).
  { exists " Ann@X.com ", " sheetA ". repeat split; reflexivity. }
  split; [exact D|].
  destruct (directory_last_row_wins Sample.env Sample.netDirectory
              Sample.fresh "1xftkSFbQbdMl4XIevPPJdYB0vqW7JJtL6HHh9CxkTPI"
              [Sample.annOldRow] [Sample.benRow] Sample.annNewRow
              "ann@x.com" "sheetA")
    as (usersMap & A & B & _).
  - reflexivity.
  - vm_compute; reflexivity.
  - vm_compute; reflexivity.
  - exact D.
  - repeat constructor. exact ben_is_silent_on_ann.
  - exists usersMap. split; [exact A|exact B].
Defined.

(** No row of the sample users sheet is for an unknown email. *)
Lemma directory_entry_iff_row_witness :
  exists usersMap,
    fst (fetchUsersMap Sample.env Sample.netDirectory Sample.fresh)
    = Return usersMap /\
    (usersMap !! "nobody@x.com" = None <->
     Forall (silentOn "nobody@x.com")
       [Sample.annOldRow; Sample.annNewRow; Sample.benRow]).
Proof.
  apply (directory_entry_iff_row Sample.env Sample.netDirectory Sample.fresh
           "1xftkSFbQbdMl4XIevPPJdYB0vqW7JJtL6HHh9CxkTPI");
    vm_compute; reflexivity.
Defined.

(** An append that goes through. *)
Lemma append_succeeds_iff_witness :
  fst (appendAppointmentToUserSheet Sample.env Sample.netUserSheet
         "sheetA" Sample.ann Sample.fresh)
  = Return tt /\
  writeOutcome
    (Sample.netUserSheet
       [ {| Http.method := Http.GET;
            Http.url := "https://sheets.googleapis.com/v4/spreadsheets/sheetA/values/Sheet1!A:A?key=k";
            Http.body := None |} ]
       {| Http.method := Http.PUT;
          Http.url := "https://sheets.googleapis.com/v4/spreadsheets/sheetA/values/Sheet1!A3:G3?valueInputOption=RAW&key=k";
          Http.body :=
            Some [[ "Ann"; "ann@x.com"; "555-0100"; "https://r/1";
                    "2024-05-02"; "09:30"; "scheduled" ]] |})
  = Return tt.
Proof.
  destruct (append_succeeds_iff Sample.env Sample.netUserSheet
              "sheetA" Sample.ann Sample.fresh) as [[_ H] _].
  split; [|vm_compute; reflexivity].
  apply H. exists "sheetA", [["Patient Name"]; ["Zoe"]].
  repeat split; vm_compute; reflexivity.
Defined.

(** Four requests for two appointments, one of them a write. *)
Lemma run_traffic_and_counts_witness :
  syncAppointments Sample.env Sample.netThree Sample.fresh
  = (Return {| processed := 2; synced := 1; errors := 1 |},
     snd (syncAppointments Sample.env Sample.netThree Sample.fresh)) /\
  exists new,
    requests (snd (syncAppointments Sample.env Sample.netThree Sample.fresh))
    = requests Sample.fresh ++ new /\
    (length new <= 2 + 2 * 2)%nat /\
    (1 <= length (List.filter isWrite new))%nat /\
    (length (List.filter isWrite new) <= 2)%nat.
Proof.
  assert (H : syncAppointments Sample.env Sample.netThree Sample.fresh
              = (Return {| processed := 2; synced := 1; errors := 1 |},
                 snd (syncAppointments Sample.env Sample.netThree Sample.fresh)))
    by (vm_compute; reflexivity).
  split; [exact H|].
  exact (run_traffic_and_counts Sample.env Sample.netThree _ _ _ H).
Defined.

(** Without a key the run does nothing; with an ill-formed users sheet
    id it throws after the read of the master sheet. *)
Lemma configuration_errors_witness :
  syncAppointments Sample.envNoKey Sample.netThree Sample.fresh
  = (Return {| processed := 0; synced := 0; errors := 0 |}, Sample.fresh) /\
  syncAppointments Sample.envBadUsers Sample.netThree Sample.fresh
  = (Throw (Error "Invalid users sheet ID format"),
     snd (fetchNewAppointments Sample.envBadUsers Sample.netThree Sample.fresh)).
Proof.
  split.
  - destruct (configuration_errors Sample.envNoKey Sample.netThree Sample.fresh)
      as [A _].
    apply A. reflexivity.
  - destruct (configuration_errors Sample.envBadUsers Sample.netThree
                Sample.fresh) as (_ & _ & C).
    destruct (C ltac:(reflexivity) [Sample.ann; Sample.bob]
                (snd (fetchNewAppointments Sample.envBadUsers Sample.netThree
                        Sample.fresh))) as [A _].
    + vm_compute; reflexivity.
    + discriminate.
    + exact A.
Defined.

(** The email written for the first sample row. *)
Lemma normalized_email_is_stable_witness :
  Js.trim (Js.toLowerCase (email (parseAppointment (Js.Int 2) 0 Sample.annRow)))
  = "ann@x.com".
Proof.
  destruct (normalized_email_is_stable (Js.Int 2) 0 Sample.annRow [] "" "")
    as [A _].
  rewrite A. reflexivity.
Defined.

(** The master row of the first sample resolves through the later of the
    two directory rows, written in another case. *)
Lemma match_ignores_case_and_blanks_witness :
  lookupUser
    (fold_left setUser ([Sample.annOldRow] ++ Sample.annNewRow :: [Sample.benRow]) ∅)
    (email (parseAppointment (Js.Int 2) 0 Sample.annRow))
  = Some "sheetA".
Proof.
  apply (match_ignores_case_and_blanks [Sample.annOldRow] [Sample.benRow]
           Sample.annNewRow " Ann@X.com " " sheetA "
           (Js.Int 2) 0 Sample.annRow " Ann@X.com ");
    try reflexivity.
  repeat constructor. exact ben_is_silent_on_ann.
Defined.

(** After a run that stored row 2, the next scan starts beyond it. *)
Lemma stored_rows_are_not_scanned_again_witness :
  watermark Sample.fresh = Js.Int 1 /\
  Js.safeInteger 1 /\
  watermark (snd (syncAppointments Sample.env Sample.netTwoRuns Sample.fresh))
  = Js.Int 2 /\
  exists ks : list Z,
    setItems (snd (syncAppointments Sample.env Sample.netTwoRuns Sample.fresh))
    = setItems Sample.fresh ++ map written ks /\
    Forall Js.safeInteger ks /\
    forall apts',
      fst (fetchNewAppointments Sample.env Sample.netTwoRuns
             (snd (syncAppointments Sample.env Sample.netTwoRuns
                     Sample.fresh)))
      = Return apts' ->
      Forall (fun apt' =>
                exists k' : Z,
                  rowIndex apt' = Js.Int k' /\ (1 < k')%Z /\
                  Js.safeInteger k' /\
                  Forall (fun k => (k < k')%Z) ks) apts'.
Proof.
  assert (W : watermark Sample.fresh = Js.Int 1) by reflexivity.
  assert (S : Js.safeInteger 1) by (unfold Js.safeInteger; lia).
  split; [exact W|]. split; [exact S|].
  split; [vm_compute; reflexivity|].
  apply (stored_rows_are_not_scanned_again Sample.env Sample.netTwoRuns
           _ _ W S).
  - intros spreadsheetId rows _ R. vm_compute in R. injection R as <-.
    unfold Js.safeInteger. simpl. lia.
  - intros spreadsheetId rows' after _ A R. vm_compute in A.
    injection A as <-. vm_compute in R. injection R as <-.
    unfold Js.safeInteger. simpl. lia.
Defined.


(** * The periodic job on the sample page *)

